(** * OLSSurvivor: the entity/component core ([ecs.py])

    A shallow embedding of [EntityManager], [Filter], [System], [Entity]
    and [DeletionSystem], followed by the properties of the
    specification that concern them.

    Python objects that are shared and mutated in place (the [Entity]
    dictionaries) live in a heap indexed by object identity; the
    manager's store maps ids to references into that heap.  Dictionaries
    keep their insertion order, as Python's do, and are association
    lists without repeated keys. *)

From Stdlib Require Import ZArith Lia Ascii Permutation Sorted DecimalString.
From Stdlib Require OrdersEx.
From Stdlib Require DecimalPos DecimalZ.
From stdpp Require Import base decidable list strings sorting gmap finite vector.

Local Open Scope Z_scope.

(** ** Component values

    The payload of a component is opaque to [ecs.py]; it is only stored,
    printed by [str] and used as a key of the store ([ent.id]).  The
    model covers the scalar payloads. *)

Inductive value : Type :=
  | VNone
  | VBool (b : bool)
  | VInt (n : Z)
  | VStr (s : string).

#[global] Instance value_eq_dec : EqDecision value.
Proof. solve_decision. Defined.

(** Truth value of [if v:]. *)
Definition value_truthy (v : value) : bool :=
  match v with
  | VNone => false
  | VBool b => b
  | VInt n => negb (n =? 0)
  | VStr s => negb (String.eqb s "")
  end.

(** The integer key a value denotes when it indexes a dictionary whose
    keys are integers: [True == 1] and [False == 0] hash alike, [None]
    and strings equal no integer. *)
Definition value_key (v : value) : option Z :=
  match v with
  | VInt n => Some n
  | VBool b => Some (Z.b2z b)
  | VNone | VStr _ => None
  end.

(** ** Exceptions and results *)

Inductive exn : Type :=
  | KeyError
  | AttributeError.

(** ** Python dictionaries: insertion-ordered association lists *)

Module PyDict.
Section Dict.
Context {K V : Type} `{EqDecision K}.

Definition t : Type := list (K * V).

Definition keys (d : t) : list K := map fst d.
Definition values (d : t) : list V := map snd d.
Definition items (d : t) : list (K * V) := d.

(** [d.get(k)] *)
Fixpoint get (d : t) (k : K) : option V :=
  match d with
  | [] => None
  | (k', v) :: d' => if decide (k = k') then Some v else get d' k
  end.

(** [k in d] *)
Definition contains (d : t) (k : K) : bool := bool_decide (is_Some (get d k)).

(** [d[k] = v]: an existing key keeps its position, a new one goes last. *)
Fixpoint setitem (d : t) (k : K) (v : V) : t :=
  match d with
  | [] => [(k, v)]
  | (k', v') :: d' =>
      if decide (k = k') then (k', v) :: d' else (k', v') :: setitem d' k v
  end.

(** [del d[k]]: [None] stands for the [KeyError] of an absent key. *)
Fixpoint delitem (d : t) (k : K) : option t :=
  match d with
  | [] => None
  | (k', v') :: d' =>
      if decide (k = k') then Some d'
      else match delitem d' k with
           | Some d'' => Some ((k', v') :: d'')
           | None => None
           end
  end.

(** No key occurs twice. *)
Definition wf (d : t) : Prop := NoDup (keys d).
End Dict.
#[global] Arguments t : clear implicits.
End PyDict.

Abbreviation pydict := PyDict.t.

(** ** Entities *)

(** [class Entity(dict)]: component key to component value. *)
Definition Entity : Type := pydict string value.

(** Names that the ordinary attribute lookup finds on an [Entity]
    instance: what [dict] and [object] define, and what the class body
    and the class machinery add (CPython 3.11). *)
Definition Entity_class_attributes : list string :=
  [ "__class__"; "__class_getitem__"; "__contains__"; "__delattr__";
    "__delitem__"; "__dict__"; "__dir__"; "__doc__"; "__eq__";
    "__format__"; "__ge__"; "__getattr__"; "__getattribute__";
    "__getitem__"; "__getstate__"; "__gt__"; "__hash__"; "__init__";
    "__init_subclass__"; "__ior__"; "__iter__"; "__le__"; "__len__";
    "__lt__"; "__module__"; "__ne__"; "__new__"; "__or__"; "__reduce__";
    "__reduce_ex__"; "__repr__"; "__reversed__"; "__ror__"; "__setattr__";
    "__setitem__"; "__sizeof__"; "__str__"; "__subclasshook__";
    "__weakref__"; "clear"; "copy"; "fromkeys"; "get"; "items"; "keys";
    "pop"; "popitem"; "setdefault"; "update"; "values" ].

(** [__getattr__ = dict.get]: the stored value, [None] for a missing key. *)
Definition Entity___getattr__ (e : Entity) (name : string) : value :=
  default VNone (PyDict.get e name).

(** [__setattr__ = dict.__setitem__] *)
Definition Entity___setattr__ (e : Entity) (name : string) (v : value) : Entity :=
  PyDict.setitem e name v.

(** What the expression [ent.name] evaluates to. *)
Inductive attr_result : Type :=
  | Component (v : value)          (* answered by [__getattr__] *)
  | ClassAttribute (name : string) (* a method or slot of the class *).

(** [ent.name]: Python consults [__getattr__] only after the ordinary
    lookup on the instance and its class has failed. *)
Definition Entity_getattribute (e : Entity) (name : string) : attr_result :=
  if bool_decide (name ∈ Entity_class_attributes) then ClassAttribute name
  else Component (Entity___getattr__ e name).

(** ** The mutable world

    Object identities are natural numbers.  [heap] holds every [Entity]
    object that exists, whether registered or not; [ents] and
    [ent_count] are the manager's fields of those names, which systems
    reach through the [ents] argument of [step] and through [mgr];
    [stdout] is what [print] has written. *)

Definition loc : Type := nat.

Record World : Type := mkWorld {
  heap : gmap loc Entity;
  ents : pydict Z loc;
  ent_count : Z;
  stdout : list string
}.

Definition set_heap (h : gmap loc Entity) (w : World) : World :=
  mkWorld h (ents w) (ent_count w) (stdout w).
Definition set_ents (d : pydict Z loc) (w : World) : World :=
  mkWorld (heap w) d (ent_count w) (stdout w).
Definition set_ent_count (n : Z) (w : World) : World :=
  mkWorld (heap w) (ents w) n (stdout w).
Definition set_stdout (o : list string) (w : World) : World :=
  mkWorld (heap w) (ents w) (ent_count w) o.

(** The dictionary behind a reference. *)
Definition deref (w : World) (ent : loc) : Entity := default [] (heap w !! ent).

(** ** Computations that mutate the world or raise

    A raised exception keeps the mutations made before it. *)

Inductive Res (A : Type) : Type :=
  | Ok (a : A) (w : World)
  | Raise (e : exn) (w : World).
#[global] Arguments Ok {A} a w.
#[global] Arguments Raise {A} e w.

Definition M (A : Type) : Type := World → Res A.

Definition ret {A} (a : A) : M A := λ w, Ok a w.
Definition raise {A} (e : exn) : M A := λ w, Raise e w.
Definition bind {A B} (c : M A) (k : A → M B) : M B :=
  λ w, match c w with
       | Ok a w' => k a w'
       | Raise e w' => Raise e w'
       end.
Definition get_world : M World := λ w, Ok w w.

Notation "x <- c1 ;; c2" := (bind c1 (λ x, c2))
  (at level 100, c1 at next level, right associativity).
Notation "c1 ;;; c2" := (bind c1 (λ _, c2))
  (at level 100, right associativity).

(** [for x in l: body(x)] *)
Fixpoint for_each {A} (l : list A) (body : A → M unit) : M unit :=
  match l with
  | [] => ret tt
  | x :: l' => body x ;;; for_each l' body
  end.

(** [[f(x) for x in l]] *)
Fixpoint map_M {A B} (f : A → M B) (l : list A) : M (list B) :=
  match l with
  | [] => ret []
  | x :: l' => y <- f x ;; ys <- map_M f l' ;; ret (y :: ys)
  end.

(** ** Systems *)

(** A system object, with its methods after dispatch.  [step] receives
    [self.ents], the one store of the world, so it reads it from there. *)
Record System : Type := mkSystem {
  System_name : string;  (* [type(system).__name__] *)
  criteria : list string;
  do_step_individual : loc → M unit;
  do_step_all : list loc → M unit;
  step : M unit
}.

(** [all([comp in ent for comp in self.criteria])] *)
Definition meets (crit : list string) (e : Entity) : bool :=
  forallb (λ comp, PyDict.contains e comp) crit.

(** [[ent for ent in ents.values() if all(...)]] *)
Definition matching (crit : list string) (w : World) : list loc :=
  List.filter (λ ent, meets crit (deref w ent)) (PyDict.values (ents w)).

(** [System.step], for a class whose [criteria] and [do_step_all] are given. *)
Definition System_step (crit : list string) (do_step_all : list loc → M unit)
    : M unit :=
  w <- get_world ;; do_step_all (matching crit w).

(** [System.do_step_all], for a class whose [do_step_individual] is given. *)
Definition System_do_step_all (do_step_individual : loc → M unit)
    (group : list loc) : M unit :=
  for_each group do_step_individual.

(** [System.do_step_individual]: [pass] *)
Definition System_do_step_individual (ent : loc) : M unit := ret tt.

(** An instance of [System] itself: [self.criteria = []]. *)
Definition System_base : System :=
  mkSystem "System" [] System_do_step_individual
    (System_do_step_all System_do_step_individual)
    (System_step [] (System_do_step_all System_do_step_individual)).

(** A subclass that sets [criteria] and overrides [do_step_individual]. *)
Definition System_per_entity (name : string) (crit : list string)
    (individual : loc → M unit) : System :=
  mkSystem name crit individual (System_do_step_all individual)
    (System_step crit (System_do_step_all individual)).

(** A subclass that sets [criteria] and overrides [do_step_all]. *)
Definition System_batch (name : string) (crit : list string)
    (all : list loc → M unit) : System :=
  mkSystem name crit System_do_step_individual all (System_step crit all).

(** *** DeletionSystem *)

(** [del self.mgr.ents[id]] *)
Definition del_ent (id : value) : M unit :=
  λ w, match value_key id with
       | Some k =>
           match PyDict.delitem (ents w) k with
           | Some d => Ok tt (set_ents d w)
           | None => Raise KeyError w
           end
       | None => Raise KeyError w
       end.

(** [DeletionSystem.do_step_all]; [ent.id] is [Entity___getattr__],
    since no class attribute is called [id]. *)
Definition DeletionSystem_do_step_all (group : list loc) : M unit :=
  w <- get_world ;;
  let to_delete := map (λ ent, Entity___getattr__ (deref w ent) "id") group in
  for_each to_delete del_ent.

Definition DeletionSystem : System :=
  System_batch "DeletionSystem" ["delete"; "id"] DeletionSystem_do_step_all.

(** ** Draw systems *)

Definition offset : Type := Z * Z.

Record DrawSystem : Type := mkDrawSystem {
  draw_criteria : list string;
  draw : offset → M unit
}.

(** [DrawSystem.draw] over [draw_all] over [draw_individual]. *)
Definition DrawSystem_draw (crit : list string)
    (draw_individual : loc → offset → M unit) (off : offset) : M unit :=
  w <- get_world ;;
  for_each (matching crit w) (λ ent, draw_individual ent off).

Definition DrawSystem_base : DrawSystem :=
  mkDrawSystem [] (DrawSystem_draw [] (λ _ _, ret tt)).

(** ** Filters *)

(** What [apply_individual] may hand back: a scalar or an entity. *)
Inductive pyobj : Type :=
  | PyValue (v : value)
  | PyEntity (ent : loc).

(** [if result] *)
Definition truthy (w : World) (o : pyobj) : bool :=
  match o with
  | PyValue v => value_truthy v
  | PyEntity ent => negb (bool_decide (deref w ent = []))
  end.

(** [result.id]: scalars have no such attribute. *)
Definition getattr_id (o : pyobj) : M value :=
  λ w, match o with
       | PyValue _ => Raise AttributeError w
       | PyEntity ent =>
           match Entity_getattribute (deref w ent) "id" with
           | Component v => Ok v w
           | ClassAttribute _ => Raise AttributeError w
           end
       end.

Definition kwargs : Type := pydict string value.

Record Filter : Type := mkFilter {
  Filter_name : string;  (* [type(filter).__name__] *)
  apply_individual : loc → kwargs → M pyobj;
  apply : kwargs → M (list value)
}.

(** [Filter.apply_individual]: [pass], that is [None]. *)
Definition Filter_apply_individual (ent : loc) (crit : kwargs) : M pyobj :=
  ret (PyValue VNone).

(** [[result.id for result in results if result]] *)
Fixpoint collect_ids (results : list pyobj) : M (list value) :=
  match results with
  | [] => ret []
  | result :: rest =>
      w <- get_world ;;
      if truthy w result
      then id <- getattr_id result ;; ids <- collect_ids rest ;; ret (id :: ids)
      else collect_ids rest
  end.

(** [Filter.apply], for a class whose [apply_individual] is given: the
    inner comprehension runs to its end before the outer one starts. *)
Definition Filter_apply (individual : loc → kwargs → M pyobj)
    (crit : kwargs) : M (list value) :=
  w <- get_world ;;
  results <- map_M (λ '(id, ent), individual ent crit) (PyDict.items (ents w)) ;;
  collect_ids results.

Definition Filter_base : Filter :=
  mkFilter "Filter" Filter_apply_individual (Filter_apply Filter_apply_individual).

(** A subclass that overrides [apply_individual]. *)
Definition Filter_per_entity (name : string)
    (individual : loc → kwargs → M pyobj) : Filter :=
  mkFilter name individual (Filter_apply individual).

(** ** [str] of the frozen state

    Python strings are sequences of code points; the model covers the
    code points below 256, one per character of a Rocq string. *)

Module Repr.

Definition hex_digit (n : Z) : ascii :=
  default "0"%char (String.list_ascii_of_string "0123456789abcdef" !! Z.to_nat n).

(** Two lower-case hexadecimal digits of a byte. *)
Definition hex_byte (b : Z) : string :=
  String (hex_digit (b / 16)) (String (hex_digit (b mod 16)) "").

Definition code (c : ascii) : Z := Z.of_N (N_of_ascii c).

(** The double quote, code point 34. *)
Definition dquote : ascii := ascii_of_nat 34.

(** [str.isprintable] on one code point below 256. *)
Definition printable (c : ascii) : bool :=
  let n := code c in
  ((32 <=? n) && (n <? 127)) || ((161 <=? n) && negb (n =? 173)).

(** One character inside a string literal delimited by [quote]. *)
Definition escape_char (quote : ascii) (c : ascii) : string :=
  if bool_decide (c = quote) || bool_decide (c = "\"%char)
  then String "\"%char (String c "")
  else if bool_decide (code c = 9) then "\t"
  else if bool_decide (code c = 10) then "\n"
  else if bool_decide (code c = 13) then "\r"
  else if printable c then String c ""
  else "\x" +:+ hex_byte (code c).

Fixpoint escape (quote : ascii) (s : string) : string :=
  match s with
  | EmptyString => ""
  | String c s' => escape_char quote c +:+ escape quote s'
  end.

Fixpoint occurs (c : ascii) (s : string) : bool :=
  match s with
  | EmptyString => false
  | String c' s' => bool_decide (c = c') || occurs c s'
  end.

(** [repr] of a [str]: single quotes, unless the text has a single
    quote and no double quote. *)
Definition repr_str (s : string) : string :=
  let quote : ascii :=
    if occurs "'"%char s && negb (occurs dquote s)
    then dquote else "'"%char in
  String quote (escape quote s) +:+ String quote "".

Definition repr_int (n : Z) : string := NilZero.string_of_int (Z.to_int n).

Definition repr_value (v : value) : string :=
  match v with
  | VNone => "None"
  | VBool true => "True"
  | VBool false => "False"
  | VInt n => repr_int n
  | VStr s => repr_str s
  end.

(** [repr] of a tuple whose elements have the given [repr]s. *)
Definition repr_tuple (parts : list string) : string :=
  match parts with
  | [] => "()"
  | [x] => "(" +:+ x +:+ ",)"
  | _ => "(" +:+ String.concat ", " parts +:+ ")"
  end.

Definition repr_item (kv : string * value) : string :=
  repr_tuple [repr_str kv.1; repr_value kv.2].

(** [str(frozen_state)] *)
Definition str_state (state : list (list (string * value))) : string :=
  repr_tuple (map (λ items, repr_tuple (map repr_item items)) state).

(** [repr] of a dictionary, as [print(ent)] shows it. *)
Definition repr_dict (e : Entity) : string :=
  "{" +:+ String.concat ", "
            (map (λ kv : string * value,
                    repr_str kv.1 +:+ ": " +:+ repr_value kv.2) e)
      +:+ "}".

(** [s.encode('utf-8')], one or two bytes per code point. *)
Fixpoint utf8 (s : string) : list Z :=
  match s with
  | EmptyString => []
  | String c s' =>
      let n := code c in
      if n <? 128 then n :: utf8 s'
      else (192 + n / 64) :: (128 + n mod 64) :: utf8 s'
  end.

End Repr.

(** ** [hashlib.md5]

    RFC 1321 over a list of bytes; words are integers below [2^32]. *)

Module MD5.

Definition word (x : Z) : Z := x mod 2 ^ 32.

Definition rotl (x c : Z) : Z :=
  word (Z.lor (Z.shiftl x c) (Z.shiftr x (32 - c))).

Definition not32 (x : Z) : Z := Z.lxor x 0xffffffff.

Definition K : list Z :=
[ 0xd76aa478; 0xe8c7b756; 0x242070db; 0xc1bdceee;
  0xf57c0faf; 0x4787c62a; 0xa8304613; 0xfd469501;
  0x698098d8; 0x8b44f7af; 0xffff5bb1; 0x895cd7be;
  0x6b901122; 0xfd987193; 0xa679438e; 0x49b40821;
  0xf61e2562; 0xc040b340; 0x265e5a51; 0xe9b6c7aa;
  0xd62f105d; 0x02441453; 0xd8a1e681; 0xe7d3fbc8;
  0x21e1cde6; 0xc33707d6; 0xf4d50d87; 0x455a14ed;
  0xa9e3e905; 0xfcefa3f8; 0x676f02d9; 0x8d2a4c8a;
  0xfffa3942; 0x8771f681; 0x6d9d6122; 0xfde5380c;
  0xa4beea44; 0x4bdecfa9; 0xf6bb4b60; 0xbebfbc70;
  0x289b7ec6; 0xeaa127fa; 0xd4ef3085; 0x04881d05;
  0xd9d4d039; 0xe6db99e5; 0x1fa27cf8; 0xc4ac5665;
  0xf4292244; 0x432aff97; 0xab9423a7; 0xfc93a039;
  0x655b59c3; 0x8f0ccc92; 0xffeff47d; 0x85845dd1;
  0x6fa87e4f; 0xfe2ce6e0; 0xa3014314; 0x4e0811a1;
  0xf7537e82; 0xbd3af235; 0x2ad7d2bb; 0xeb86d391 ].

Definition shifts : list Z :=
[ 7; 12; 17; 22; 7; 12; 17; 22; 7; 12; 17; 22; 7; 12; 17; 22;
  5;  9; 14; 20; 5;  9; 14; 20; 5;  9; 14; 20; 5;  9; 14; 20;
  4; 11; 16; 23; 4; 11; 16; 23; 4; 11; 16; 23; 4; 11; 16; 23;
  6; 10; 15; 21; 6; 10; 15; 21; 6; 10; 15; 21; 6; 10; 15; 21 ].

Definition nth_word (l : list Z) (i : nat) : Z := default 0 (l !! i).

(** The four chaining words. *)
Definition state : Type := Z * Z * Z * Z.

Definition init : state := (0x67452301, 0xefcdab89, 0x98badcfe, 0x10325476).

(** Operation [i] of a block whose sixteen words are [m]. *)
Definition operation (m : list Z) (st : state) (i : nat) : state :=
  let '(a, b, c, d) := st in
  let '(f, g) :=
    if (i <? 16)%nat
      then (Z.lor (Z.land b c) (Z.land (not32 b) d), i)
    else if (i <? 32)%nat
      then (Z.lor (Z.land d b) (Z.land (not32 d) c), (5 * i + 1) mod 16)%nat
    else if (i <? 48)%nat
      then (Z.lxor (Z.lxor b c) d, (3 * i + 5) mod 16)%nat
    else (Z.lxor c (Z.lor b (not32 d)), (7 * i) mod 16)%nat in
  let f := word (f + a + nth_word K i + nth_word m g) in
  (d, word (b + rotl f (nth_word shifts i)), b, c).

(** Little-endian word of four bytes. *)
Definition le_word (bytes : list Z) : Z :=
  foldr (λ b acc, b + 256 * acc) 0 bytes.

(** The bytes of a word, least significant first. *)
Definition le_bytes (n : nat) (x : Z) : list Z :=
  map (λ i : nat, (x / 2 ^ (8 * Z.of_nat i)) mod 256) (seq 0 n).

(** Consecutive groups of [n] elements. *)
Fixpoint groups {A} (fuel n : nat) (l : list A) : list (list A) :=
  match fuel, l with
  | O, _ | _, [] => []
  | S fuel', _ => take n l :: groups fuel' n (drop n l)
  end.

Definition block (st : state) (bytes : list Z) : state :=
  let m := map le_word (groups 16 4 bytes) in
  let '(a, b, c, d) := st in
  let '(a', b', c', d') := foldl (operation m) st (seq 0 64) in
  (word (a + a'), word (b + b'), word (c + c'), word (d + d')).

(** The message, a one bit, zeros up to 56 modulo 64, the bit length. *)
Definition pad (msg : list Z) : list Z :=
  let len := Z.of_nat (length msg) in
  msg ++ [128] ++ replicate (Z.to_nat ((55 - len) mod 64)) 0
      ++ le_bytes 8 ((8 * len) mod 2 ^ 64).

Definition digest_words (msg : list Z) : state :=
  let p := pad msg in
  foldl block init (groups (length p) 64 p).

(** [md5(msg).digest()] *)
Definition digest (msg : list Z) : list Z :=
  let '(a, b, c, d) := digest_words msg in
  le_bytes 4 a ++ le_bytes 4 b ++ le_bytes 4 c ++ le_bytes 4 d.

(** [md5(msg).hexdigest()] *)
Definition hexdigest (msg : list Z) : string :=
  String.concat "" (map Repr.hex_byte (digest msg)).

End MD5.

(** ** EntityManager *)

(** The registries of the manager; [self.ents] and [self.ent_count] are
    in the [World], where systems can reach them. *)
Record EntityManager : Type := mkEntityManager {
  filters : pydict string Filter;
  systems : list System;
  draw_systems : list DrawSystem
}.

(** [x if x else []], for an optional argument that defaults to [None]:
    an empty container is replaced as well. *)
Definition or_empty {A} (arg : option (list A)) : list A :=
  match arg with
  | Some (x :: l) => x :: l
  | Some [] | None => []
  end.

(** [EntityManager(ents, systems, draw_systems, filters)], in a heap [h]
    of already constructed entities. *)
Definition EntityManager___init__ (h : gmap loc Entity) (out : list string)
    (ents : option (pydict Z loc)) (systems : option (list System))
    (draw_systems : option (list DrawSystem))
    (filters : option (pydict string Filter)) : World * EntityManager :=
  (mkWorld h (or_empty ents) 0 out,
   mkEntityManager (or_empty filters) (or_empty systems) (or_empty draw_systems)).

(** [sorted(ent.items())]: the keys of a dictionary are distinct, so the
    comparison of two items is decided by their keys.  Insertion of each
    item, last first, in front of the first item whose key is not smaller. *)
Fixpoint insert_item (x : string * value) (l : list (string * value))
    : list (string * value) :=
  match l with
  | [] => [x]
  | y :: l' => if String.leb x.1 y.1 then x :: l else y :: insert_item x l'
  end.

Definition sorted_items (e : Entity) : list (string * value) :=
  foldr insert_item [] (PyDict.items e).

(** [frozen_state] of [do_step] *)
Definition frozen_state (w : World) : list (list (string * value)) :=
  map (λ ent, sorted_items (deref w ent)) (PyDict.values (ents w)).

(** [state_hash] of [do_step]: the hexadecimal digest, as bytes of text. *)
Definition state_hash (w : World) : string :=
  MD5.hexdigest (Repr.utf8 (Repr.str_state (frozen_state w))).

Definition EntityManager_do_step (self : EntityManager) : M string :=
  for_each (systems self) step ;;;
  w <- get_world ;;
  ret (state_hash w).

Definition EntityManager_draw (self : EntityManager) (off : offset) : M unit :=
  for_each (draw_systems self) (λ system, draw system off).

(** [ent.name = v], that is [Entity.__setattr__(ent, name, v)] *)
Definition setattr (ent : loc) (name : string) (v : value) : M unit :=
  λ w, Ok tt (set_heap (<[ent := Entity___setattr__ (deref w ent) name v]> (heap w)) w).

(** [print(ent)] *)
Definition print (ent : loc) : M unit :=
  λ w, Ok tt (set_stdout (stdout w ++ [Repr.repr_dict (deref w ent)]) w).

(** [add_ent] has no [return]: the caller receives [None]. *)
Definition EntityManager_add_ent (ent : loc) : M value :=
  w <- get_world ;;
  let id := ent_count w in
  setattr ent "id" (VInt id) ;;;
  (λ w, Ok tt (set_ents (PyDict.setitem (ents w) id ent) w)) ;;;
  (λ w, Ok tt (set_ent_count (ent_count w + 1) w)) ;;;
  print ent ;;;
  ret VNone.

Definition EntityManager_filter (self : EntityManager) (filter_id : string)
    (kw : kwargs) : M (list value) :=
  match PyDict.get (filters self) filter_id with
  | Some f => apply f kw
  | None => raise KeyError
  end.

(** [if index:] for an index that is [None] or an integer *)
Definition index_given (index : option Z) : bool :=
  match index with
  | None => false
  | Some i => negb (i =? 0)
  end.

(** [l.insert(i, x)]: a negative index counts from the end, and the
    position is clamped to the list. *)
Definition list_insert {A} (l : list A) (i : Z) (x : A) : list A :=
  let n := Z.of_nat (length l) in
  let pos := if i <? 0 then Z.max 0 (i + n) else Z.min i n in
  take (Z.to_nat pos) l ++ x :: drop (Z.to_nat pos) l.

Definition EntityManager_add_draw_system (self : EntityManager)
    (new_draw_system : DrawSystem) (index : option Z) : EntityManager :=
  match index with
  | Some i =>
      if index_given index
      then mkEntityManager (filters self) (systems self)
             (list_insert (draw_systems self) i new_draw_system)
      else mkEntityManager (filters self) (systems self)
             (draw_systems self ++ [new_draw_system])
  | None =>
      mkEntityManager (filters self) (systems self)
        (draw_systems self ++ [new_draw_system])
  end.

Definition EntityManager_add_system (self : EntityManager)
    (new_system : System) (index : option Z) : EntityManager :=
  match index with
  | Some i =>
      if index_given index
      then mkEntityManager (filters self)
             (list_insert (systems self) i new_system) (draw_systems self)
      else mkEntityManager (filters self)
             (systems self ++ [new_system]) (draw_systems self)
  | None =>
      mkEntityManager (filters self)
        (systems self ++ [new_system]) (draw_systems self)
  end.

(** [if name:] for a name that is [None] or a string *)
Definition name_given (name : option string) : bool :=
  match name with
  | None => false
  | Some n => negb (String.eqb n "")
  end.

Definition EntityManager_add_filter (self : EntityManager)
    (new_filter : Filter) (name : option string) : EntityManager :=
  let key := if name_given name then default "" name else Filter_name new_filter in
  mkEntityManager (PyDict.setitem (filters self) key new_filter)
    (systems self) (draw_systems self).

(** [ecs[id]] *)
Definition EntityManager___getitem__ (id : Z) : M loc :=
  λ w, match PyDict.get (ents w) id with
       | Some ent => Ok ent w
       | None => Raise KeyError w
       end.

Definition EntityManager_get_system (self : EntityManager)
    (classname : string) : option System :=
  List.find (λ system, String.eqb (System_name system) classname) (systems self).

(** A heap given by its objects. *)
Definition heap_of (l : list (loc * Entity)) : gmap loc Entity := list_to_map l.

(** * Vocabulary of the statements

    Auxiliary notions in which the properties below are stated: the
    world a registration leaves, traces of registrations and deletions,
    equality of entity states up to the order of insertion, the bits of
    a digest, and the sample worlds of the examples. *)

(** The world in which a computation ends, normally or not. *)
Definition world_of {A} (r : Res A) : World :=
  match r with
  | Ok _ w => w
  | Raise _ w => w
  end.

(** The world that [add_ent] leaves. *)
Definition registered (ent : loc) (w : World) : World :=
  let e := Entity___setattr__ (deref w ent) "id" (VInt (ent_count w)) in
  mkWorld (<[ent := e]> (heap w))
          (PyDict.setitem (ents w) (ent_count w) ent)
          (ent_count w + 1)
          (stdout w ++ [Repr.repr_dict e]).

(** The order of [sorted] on the items of a dictionary: by key, code
    point by code point. *)
Definition key_lt (x y : string * value) : Prop := String.compare x.1 y.1 = Lt.

(** [result.id] of a result that is an entity. *)
Definition id_of (w : World) (o : pyobj) : value :=
  match o with
  | PyEntity ent => Entity___getattr__ (deref w ent) "id"
  | PyValue _ => VNone
  end.

(** The [apply_individual] of a filter that keeps the entities with a
    component [hp]: it returns the entity, or [None]. *)
Definition has_hp (ent : loc) (crit : kwargs) : M pyobj :=
  w <- get_world ;;
  ret (if PyDict.contains (deref w ent) "hp" then PyEntity ent else PyValue VNone).

(** An entry of the store is flagged when its entity meets the criteria
    of [DeletionSystem]. *)
Definition flagged (w : World) (kv : Z * loc) : bool :=
  meets ["delete"; "id"] (deref w kv.2).

(** Every entity of the store carries, as its [id], the key it is stored
    under: the state of a store that registrations have filled. *)
Definition own_ids (w : World) : Prop :=
  PyDict.wf (ents w)
  ∧ ∀ id ent, (id, ent) ∈ ents w → PyDict.get (deref w ent) "id" = Some (VInt id).

(** The store of the example: ids 1, 2, 3, the first and the last flagged. *)
Definition flagged_world : World :=
  mkWorld (heap_of [(10%nat, [("id", VInt 1); ("delete", VBool true)]);
                    (20%nat, [("id", VInt 2)]);
                    (30%nat, [("id", VInt 3); ("delete", VBool true)])])
          [(1, 10%nat); (2, 20%nat); (3, 30%nat)] 4 [].

(** What a caller does to the store: a registration, the deletion of an
    id, or a tick of [DeletionSystem].  A [KeyError] is caught by the
    caller, who goes on in the world the exception left. *)
Inductive op : Type :=
  | Register (ent : loc)
  | Delete (id : value)
  | DeletionTick.

(** The world after one operation. *)
Definition run_op (o : op) (w : World) : World :=
  match o with
  | Register ent => world_of (EntityManager_add_ent ent w)
  | Delete id => world_of (del_ent id w)
  | DeletionTick => world_of (step DeletionSystem w)
  end.

(** The world after a sequence of operations. *)
Definition run (ops : list op) (w : World) : World := foldl (λ w o, run_op o w) w ops.

(** The ids that the registrations among [ops] hand out, read from the
    registered entity right after each registration. *)
Fixpoint assigned (ops : list op) (w : World) : list value :=
  match ops with
  | [] => []
  | Register ent :: ops' =>
      Entity___getattr__ (deref (run_op (Register ent) w) ent) "id"
        :: assigned ops' (run_op (Register ent) w)
  | o :: ops' => assigned ops' (run_op o w)
  end.

(** How many of the operations are registrations. *)
Definition registrations (ops : list op) : nat :=
  length (List.filter (λ o, match o with Register _ => true | _ => false end) ops).

(** Every key of the store is below the counter. *)
Definition below_counter (w : World) : Prop :=
  ∀ k, k ∈ PyDict.keys (ents w) → k < ent_count w.

(** Every entity of the store is a dictionary: no key twice. *)
Definition entities_wf (w : World) : Prop :=
  ∀ ent, ent ∈ PyDict.values (ents w) → PyDict.wf (deref w ent).

(** The same entities in the same order of the store, each with the same
    items, whatever the order in which the items were inserted. *)
Definition same_entities (w1 w2 : World) : Prop :=
  Forall2 (λ ent1 ent2, deref w1 ent1 ≡ₚ deref w2 ent2)
          (PyDict.values (ents w1)) (PyDict.values (ents w2)).

(** A word of 32 bits, and four of them. *)
Definition word_bounded (x : Z) : Prop := 0 ≤ x < 2 ^ 32.

Definition state_bounded (st : MD5.state) : Prop :=
  let '(a, b, c, d) := st in
  word_bounded a ∧ word_bounded b ∧ word_bounded c ∧ word_bounded d.

(** The 32 bits of a word. *)
Definition bits32 (x : Z) : vec bool 32 :=
  fun_to_vec (λ i : fin 32, Z.testbit x (Z.of_nat (fin_to_nat i))).

(** The 128 bits of a digest. *)
Definition state_bits (st : MD5.state)
    : vec bool 32 * vec bool 32 * vec bool 32 * vec bool 32 :=
  let '(a, b, c, d) := st in (bits32 a, bits32 b, bits32 c, bits32 d).

(** The bits as a text of the characters [0] and [1]. *)
Fixpoint bits_string (bs : list bool) : string :=
  match bs with
  | [] => ""
  | b :: bs' => String (if b then "1" else "0")%char (bits_string bs')
  end.

(** A store with one entity, whose only component spells 129 bits. *)
Definition bits_world (bs : vec bool 129) : World :=
  mkWorld {[ 0%nat := [("k", VStr (bits_string (vec_to_list bs)))] ]}
          [(0, 0%nat)] 1 [].

(** The 128 bits of the digest that [do_step] computes in that world. *)
Definition bits_digest (bs : vec bool 129)
    : vec bool 32 * vec bool 32 * vec bool 32 * vec bool 32 :=
  state_bits (MD5.digest_words
                (Repr.utf8 (Repr.str_state (frozen_state (bits_world bs))))).

(** * Vocabulary for reading a state back from its text *)

(** [f] is a prefix code: a text that starts with the image of a value
    tells the value and where the image ends. *)
Definition prefix_code {A} (f : A → string) : Prop :=
  ∀ a a' r r', f a +:+ r = f a' +:+ r' → a = a' ∧ r = r'.

(** The quote that [repr] puts around a text. *)
Definition quote_of (s : string) : ascii :=
  if Repr.occurs "'"%char s && negb (Repr.occurs Repr.dquote s)
  then Repr.dquote else "'"%char.

(** The value of a hexadecimal digit. *)
Definition hex_value (c : ascii) : Z :=
  let n := Repr.code c in if n <? 58 then n - 48 else n - 87.

(** Reads one character of a text literal delimited by [quote] back
    from its escaped form: the character and the rest of the text. *)
Definition unescape_char (quote : ascii) (s : string) : option (ascii * string) :=
  match s with
  | EmptyString => None
  | String c r =>
      if bool_decide (c = "\"%char) then
        match r with
        | EmptyString => None
        | String e r' =>
            if bool_decide (e = quote) || bool_decide (e = "\"%char) then Some (e, r')
            else if bool_decide (e = "t"%char) then Some (ascii_of_nat 9, r')
            else if bool_decide (e = "n"%char) then Some (ascii_of_nat 10, r')
            else if bool_decide (e = "r"%char) then Some (ascii_of_nat 13, r')
            else if bool_decide (e = "x"%char) then
              match r' with
              | String h1 (String h2 r'') =>
                  Some (ascii_of_N (Z.to_N (16 * hex_value h1 + hex_value h2)), r'')
              | _ => None
              end
            else None
        end
      else if bool_decide (c = quote) then None
      else Some (c, r)
  end.

(** A character of the decimal notation of an integer. *)
Definition int_char (c : ascii) : bool :=
  bool_decide (c ∈ String.list_ascii_of_string "-0123456789").

(** The bytes that [do_step] gives to the digest. *)
Definition digest_input (w : World) : list Z :=
  Repr.utf8 (Repr.str_state (frozen_state w)).

(** Two different messages with the same digest. *)
Definition md5_collision (m1 m2 : list Z) : Prop :=
  m1 ≠ m2 ∧ MD5.hexdigest m1 = MD5.hexdigest m2.

(** A store in which the entity under id 1 is flagged and carries the
    id 2, under which another entity is stored. *)
Definition foreign_id_world : World :=
  mkWorld (heap_of [(10%nat, [("id", VInt 2); ("delete", VBool true)]);
                    (20%nat, [("id", VInt 2)])])
          [(1, 10%nat); (2, 20%nat)] 3 [].

(** The ids that the entities having both [delete] and [id] carry, as
    keys of the store and in the order of the store, and the keys these
    entities are stored under. *)
Definition carried_ids (w : World) : list (option Z) :=
  map (λ ent, value_key (Entity___getattr__ (deref w ent) "id"))
      (matching ["delete"; "id"] w).

Definition flagged_keys (w : World) : list Z :=
  PyDict.keys (List.filter (flagged w) (ents w)).

(** * Vocabulary of the further properties

    The remaining methods of [Entity], and the notions in which the
    properties of the second part are stated. *)

(** [__delattr__ = dict.__delitem__]: [None] stands for the [KeyError]
    of a missing key. *)
Definition Entity___delattr__ (e : Entity) (name : string) : option Entity :=
  PyDict.delitem e name.

(** [del ent.name] *)
Definition delattr (ent : loc) (name : string) : M unit :=
  λ w, match Entity___delattr__ (deref w ent) name with
       | Some e => Ok tt (set_heap (<[ent := e]> (heap w)) w)
       | None => Raise KeyError w
       end.

(** A lower-case hexadecimal digit. *)
Definition is_hex (c : ascii) : bool :=
  bool_decide (c ∈ String.list_ascii_of_string "0123456789abcdef").

(** A text of lower-case hexadecimal digits. *)
Definition hex_text (s : string) : Prop :=
  Forall (λ c, is_hex c = true) (String.list_ascii_of_string s).

(** [l'] is [l] with [x] put in at position [p]. *)
Definition inserted_at {A} (l : list A) (x : A) (p : nat) (l' : list A) : Prop :=
  l' !! p = Some x
  ∧ (∀ j, (j < p)%nat → l' !! j = l !! j)
  ∧ (∀ j, (p ≤ j)%nat → l' !! S j = l !! j)
  ∧ length l' = S (length l).

(** What [list.insert(i, x)] does for an index other than 0: a positive
    index is a position, clamped to the end; a negative one counts from
    the end, clamped to the front. *)
Definition inserted_by_index {A} (l : list A) (x : A) (i : Z) (l' : list A) : Prop :=
  let n := Z.of_nat (length l) in
  (0 < i ≤ n → inserted_at l x (Z.to_nat i) l')
  ∧ (n < i → l' = l ++ [x])
  ∧ (- n ≤ i < 0 → inserted_at l x (Z.to_nat (n + i)) l')
  ∧ (i < - n → l' = x :: l).

(** The name under which [add_filter] registers a filter. *)
Definition filter_key (new_filter : Filter) (name : option string) : string :=
  match name with
  | Some n => if String.eqb n "" then Filter_name new_filter else n
  | None => Filter_name new_filter
  end.

(** The [apply_individual] of a filter that returns the entity where
    the predicate [p] holds of its components, and [None] elsewhere. *)
Definition select (p : Entity → kwargs → bool) (ent : loc) (crit : kwargs)
    : M pyobj :=
  w <- get_world ;;
  ret (if p (deref w ent) crit then PyEntity ent else PyValue VNone).

(** The [id] values that [DeletionSystem] collects in a world. *)
Definition to_delete (w : World) : list value :=
  map (λ ent, Entity___getattr__ (deref w ent) "id") (matching ["delete"; "id"] w).

(** What the code around a manager does between ticks: it registers an
    entity, writes a component of an entity, deletes an id from the
    store, or runs a tick of [DeletionSystem]. *)
Inductive action : Type :=
  | Add (ent : loc)
  | SetComponent (ent : loc) (name : string) (v : value)
  | Del (id : value)
  | Tick.

Definition perform (a : action) (w : World) : World :=
  match a with
  | Add ent => world_of (EntityManager_add_ent ent w)
  | SetComponent ent name v => world_of (setattr ent name v w)
  | Del id => world_of (del_ent id w)
  | Tick => world_of (step DeletionSystem w)
  end.

(** The use the data model expects: an object is registered once, and
    the component [id] is left to the manager. *)
Fixpoint disciplined (acts : list action) (w : World) : Prop :=
  match acts with
  | [] => True
  | a :: acts' =>
      match a with
      | Add ent => ent ∉ PyDict.values (ents w)
      | SetComponent _ name _ => name ≠ "id"
      | Del _ | Tick => True
      end
      ∧ disciplined acts' (perform a w)
  end.

Definition perform_all (acts : list action) (w : World) : World :=
  foldl (λ w a, perform a w) w acts.

(** One flagged object stored under the ids 0 and 1: it was registered
    twice, and carries the second id. *)
Definition aliased_world : World :=
  mkWorld (heap_of [(5%nat, [("delete", VBool true); ("id", VInt 1)])])
          [(0, 5%nat); (1, 5%nat)] 2 [].

(** A per-entity step that deletes the component [hp]: [del ent.hp]. *)
Definition drop_hp (ent : loc) : M unit := delattr ent "hp".

(** Three registered entities, of which the second has no [hp]. *)
Definition hp_world : World :=
  mkWorld (heap_of [(5%nat, [("hp", VInt 3); ("id", VInt 0)]);
                    (6%nat, [("id", VInt 1)]);
                    (7%nat, [("hp", VInt 9); ("id", VInt 2)])])
          [(0, 5%nat); (1, 6%nat); (2, 7%nat)] 3 [].

(** The store only lost entries; nothing else changed. *)
Definition shrunk (w w' : World) : Prop :=
  heap w' = heap w ∧ ent_count w' = ent_count w ∧ ents w' `sublist_of` ents w.

(** The [apply_individual] of a filter that answers [True] or [False]
    instead of the entity or [None]. *)
Definition answers_bool (p : Entity → kwargs → bool) (ent : loc) (crit : kwargs)
    : M pyobj :=
  w <- get_world ;; ret (PyValue (VBool (p (deref w ent) crit))).

(** * Properties *)

(** ** The model against CPython

    Values printed by CPython 3.11 for the same inputs. *)

Example md5_empty : MD5.hexdigest [] = "d41d8cd98f00b204e9800998ecf8427e".
Proof. vm_compute. reflexivity. Qed.

Example md5_abc :
  MD5.hexdigest (Repr.utf8 "abc") = "900150983cd24fb0d6963f7d28e17f72".
Proof. vm_compute. reflexivity. Qed.

Example md5_two_blocks :
  MD5.hexdigest (Repr.utf8 ("1234567890123456789012345678901234567890"
                            +:+ "1234567890123456789012345678901234567890"))
  = "57edf4a22be3c955ac49da2e2107b67a".
Proof. vm_compute. reflexivity. Qed.

Example str_state_sample :
  Repr.str_state
    [ [("a'b", VBool true); ("x" +:+ String Repr.dquote "y'", VNone);
       (String (ascii_of_nat 160) (String (ascii_of_nat 233)
          (String (ascii_of_nat 127) (String (ascii_of_nat 10) ""))), VInt (-5))];
      [] ]
  = "(((" +:+ String Repr.dquote "a'b" +:+ String Repr.dquote ", True), ('x"
      +:+ String Repr.dquote "y\'', None), ('\xa0"
      +:+ String (ascii_of_nat 233) "\x7f\n', -5)), ())".
Proof. vm_compute. reflexivity. Qed.

Example state_hash_latin1 :
  state_hash
    (mkWorld (heap_of [(0%nat, [("name", VStr ("caf" +:+ String (ascii_of_nat 233)
                                                 (String " " (String (ascii_of_nat 160) ""))));
                                ("id", VInt 0)]);
                       (1%nat, [])])
             [(0, 0%nat); (1, 1%nat)] 2 [])
  = "148430658f0bf461c7ab18db77905866".
Proof. vm_compute. reflexivity. Qed.

Example state_hash_sample :
  state_hash (mkWorld (heap_of [(7%nat, [("id", VInt 0); ("a", VInt 1)])])
                [(0, 7%nat)] 1 [])
  = "f616b1e29350ec652ad3aaf76d0fe477".
Proof. vm_compute. reflexivity. Qed.

(** ** Dictionaries *)

Section DictFacts.
Context {K V : Type} `{EqDecision K}.
Implicit Types (d : pydict K V) (k : K) (v : V).

Lemma get_None d k : PyDict.get d k = None ↔ k ∉ PyDict.keys d.
Proof.
  induction d as [|[k' v'] d IH]; simpl.
  - split; [intros _; apply not_elem_of_nil | done].
  - rewrite not_elem_of_cons. destruct (decide (k = k')) as [->|Hne].
    + split; [done | intros [? _]; done].
    + rewrite IH. tauto.
Qed.

Lemma get_Some_elem d k v : PyDict.get d k = Some v → (k, v) ∈ d.
Proof.
  induction d as [|[k' v'] d IH]; simpl; [done|].
  destruct (decide (k = k')) as [->|Hne].
  - intros [= ->]. apply list_elem_of_here.
  - intros H'. apply list_elem_of_further, IH, H'.
Qed.

Lemma contains_true d k : PyDict.contains d k = true ↔ k ∈ PyDict.keys d.
Proof.
  unfold PyDict.contains. rewrite bool_decide_eq_true.
  destruct (PyDict.get d k) eqn:E.
  - split; [|by eauto]. intros _.
    apply get_Some_elem in E. by apply (list_elem_of_fmap_2 fst) in E.
  - apply get_None in E. split; [intros [? ?]; done | done].
Qed.

Lemma get_setitem_eq d k v : PyDict.get (PyDict.setitem d k v) k = Some v.
Proof.
  induction d as [|[k' v'] d IH]; simpl.
  - by rewrite decide_True.
  - destruct (decide (k = k')) as [->|Hne]; simpl.
    + by rewrite decide_True.
    + by rewrite decide_False.
Qed.

Lemma get_setitem_ne d k k' v :
  k ≠ k' → PyDict.get (PyDict.setitem d k v) k' = PyDict.get d k'.
Proof.
  intros Hne. induction d as [|[k0 v0] d IH]; simpl.
  - by rewrite decide_False.
  - destruct (decide (k = k0)) as [->|Hne0]; simpl.
    + by rewrite !(decide_False (P := k' = k0)).
    + by rewrite IH.
Qed.

Lemma keys_setitem d k v :
  ∀ k', k' ∈ PyDict.keys (PyDict.setitem d k v) ↔ k' = k ∨ k' ∈ PyDict.keys d.
Proof.
  intros k'. rewrite <- !contains_true. unfold PyDict.contains.
  rewrite !bool_decide_eq_true. destruct (decide (k = k')) as [->|Hne].
  - rewrite get_setitem_eq. split; [by left | by eauto].
  - rewrite get_setitem_ne by done. split; [by right|].
    intros [->|?]; done.
Qed.

Lemma delitem_keys d k d' :
  PyDict.delitem d k = Some d' → ∀ k', k' ∈ PyDict.keys d' → k' ∈ PyDict.keys d.
Proof.
  revert d'. induction d as [|[k0 v0] d IH]; simpl; [done|].
  intros d'. destruct (decide (k = k0)) as [->|Hne].
  - intros [= ->] k' Hk'. by apply list_elem_of_further.
  - destruct (PyDict.delitem d k) as [d''|] eqn:E; [|done].
    intros [= <-] k' Hk'. simpl in Hk'.
    apply elem_of_cons in Hk' as [->|Hk']; [apply list_elem_of_here|].
    apply list_elem_of_further. by eapply IH.
Qed.

Lemma setitem_fresh d k v :
  k ∉ PyDict.keys d → PyDict.setitem d k v = d ++ [(k, v)].
Proof.
  induction d as [|[k' v'] d IH]; simpl; [done|].
  rewrite not_elem_of_cons. intros [Hne Hd].
  rewrite decide_False by done. by rewrite IH.
Qed.

(** Deleting a key that lies behind a prefix without it. *)
Lemma delitem_app pre k v d :
  k ∉ PyDict.keys pre → PyDict.delitem (pre ++ (k, v) :: d) k = Some (pre ++ d).
Proof.
  induction pre as [|[k0 v0] pre IH]; simpl.
  - intros _. by rewrite decide_True.
  - rewrite not_elem_of_cons. intros [Hne Hpre].
    rewrite decide_False by done. by rewrite IH.
Qed.
End DictFacts.

(** ** Worlds *)

Lemma deref_set_heap_eq h w ent e :
  deref (set_heap (<[ent := e]> h) w) ent = e.
Proof. unfold deref; simpl. by rewrite lookup_insert_eq. Qed.

Lemma add_ent_registered ent w :
  EntityManager_add_ent ent w = Ok VNone (registered ent w).
Proof.
  unfold EntityManager_add_ent, registered, bind, get_world, setattr, print, ret.
  simpl. unfold set_stdout, set_ent_count, set_ents, set_heap, deref. simpl.
  by rewrite lookup_insert_eq.
Qed.

Lemma deref_registered ent w :
  deref (registered ent w) ent
  = Entity___setattr__ (deref w ent) "id" (VInt (ent_count w)).
Proof. unfold deref at 1; simpl. by rewrite lookup_insert_eq. Qed.

(** ** Attribute access on entities (C9) *)

(** C9, as stated, fails: the component whose key is [items] is hidden
    by the method [dict.items], present or not. *)
Lemma Entity_getattribute_hidden_key :
  ¬ (∀ (e : Entity) (name : string),
       match PyDict.get e name with
       | Some v => Entity_getattribute e name = Component v
       | None => Entity_getattribute e name = Component VNone
       end).
Proof.
  intros H. specialize (H [("items", VInt 5)] "items").
  vm_compute in H. discriminate H.
Qed.

(** C9 (amended): for every entity and every component key that is not
    the name of an attribute of the class, [ent.key] is the stored value
    when the key is present and [None] when it is absent; it never
    raises. *)
Theorem Entity_getattribute_component (e : Entity) (name : string) :
  name ∉ Entity_class_attributes →
  match PyDict.get e name with
  | Some v => Entity_getattribute e name = Component v
  | None => Entity_getattribute e name = Component VNone
  end.
Proof.
  intros Hname. unfold Entity_getattribute, Entity___getattr__.
  rewrite bool_decide_eq_false_2 by exact Hname.
  by destruct (PyDict.get e name).
Qed.

Lemma Entity_getattribute_component_witness :
  Entity_getattribute [("hp", VInt 3)] "hp" = Component (VInt 3)
  ∧ Entity_getattribute [("hp", VInt 3)] "mana" = Component VNone.
Proof.
  split.
  - apply (Entity_getattribute_component [("hp", VInt 3)] "hp"). compute_done.
  - apply (Entity_getattribute_component [("hp", VInt 3)] "mana"). compute_done.
Defined.

(** ** Registering systems (C2) *)

(** C2: without an index the new system goes last, in both lists; with
    the index 0 it goes last as well, because [if index:] takes 0 for no
    index.  On the list [[System_base]], [add_system(DeletionSystem, 0)]
    gives [[System_base; DeletionSystem]], not the insertion at the
    front. *)
Theorem add_system_index_zero :
  (∀ self s, systems (EntityManager_add_system self s None) = systems self ++ [s])
  ∧ (∀ self s, draw_systems (EntityManager_add_draw_system self s None)
               = draw_systems self ++ [s])
  ∧ (∀ self s, systems (EntityManager_add_system self s (Some 0)) = systems self ++ [s])
  ∧ (∀ self s, draw_systems (EntityManager_add_draw_system self s (Some 0))
               = draw_systems self ++ [s])
  ∧ systems (EntityManager_add_system
               (mkEntityManager [] [System_base] []) DeletionSystem (Some 0))
      = [System_base; DeletionSystem]
  ∧ systems (EntityManager_add_system
               (mkEntityManager [] [System_base] []) DeletionSystem (Some 0))
      ≠ DeletionSystem :: [System_base]
  ∧ systems (EntityManager_add_system
               (mkEntityManager [] [System_base] []) DeletionSystem (Some 1))
      = [System_base; DeletionSystem]
  ∧ systems (EntityManager_add_system
               (mkEntityManager [] [System_base] []) DeletionSystem (Some (-1)))
      = [DeletionSystem; System_base].
Proof.
  split_and!; try reflexivity.
  simpl. intros H. apply (f_equal (map System_name)) in H. discriminate H.
Qed.

(** ** Registration (C3, C10) *)

(** C3, as stated, fails: [add_ent] hands [None] back, not the id. *)
Lemma add_ent_does_not_return_id :
  ¬ (∀ (ent : loc) (w : World),
       ∃ w', EntityManager_add_ent ent w = Ok (VInt (ent_count w)) w'
             ∧ PyDict.get (ents w') (ent_count w) = Some ent).
Proof.
  intros H.
  destruct (H 0%nat (mkWorld (heap_of [(0%nat, [])]) [] 0 [])) as (w' & Hrun & _).
  rewrite add_ent_registered in Hrun. discriminate Hrun.
Qed.

(** C3 (amended): for every entity and every state, [add_ent] gives the
    entity the next sequential id (the value of [ent_count]) as its [id]
    component, stores the entity under that id, advances the counter by
    one, and returns [None]; the caller reads the id from the entity. *)
Theorem add_ent_assigns_next_id (ent : loc) (w : World) :
  ∃ w', EntityManager_add_ent ent w = Ok VNone w'
        ∧ Entity_getattribute (deref w' ent) "id" = Component (VInt (ent_count w))
        ∧ PyDict.get (ents w') (ent_count w) = Some ent
        ∧ EntityManager___getitem__ (ent_count w) w' = Ok ent w'
        ∧ ent_count w' = ent_count w + 1.
Proof.
  exists (registered ent w). split; [apply add_ent_registered|].
  assert (Hget : PyDict.get (ents (registered ent w)) (ent_count w) = Some ent)
    by apply get_setitem_eq.
  repeat split.
  - unfold Entity_getattribute. rewrite bool_decide_eq_false_2 by compute_done.
    unfold Entity___getattr__, registered, deref; simpl.
    rewrite lookup_insert_eq; simpl.
    unfold Entity___setattr__. by rewrite get_setitem_eq.
  - exact Hget.
  - unfold EntityManager___getitem__. by rewrite Hget.
Qed.

(** ** The order of component keys *)

Lemma string_compare_OT (s1 s2 : string) :
  String.compare s1 s2 = OrdersEx.String_as_OT.compare s1 s2.
Proof.
  revert s2. induction s1 as [|c1 s1 IH]; intros [|c2 s2]; reflexivity.
Qed.

Lemma string_lt_trans (s1 s2 s3 : string) :
  String.compare s1 s2 = Lt → String.compare s2 s3 = Lt → String.compare s1 s3 = Lt.
Proof.
  rewrite !string_compare_OT.
  apply (@StrictOrder_Transitive _ _ OrdersEx.String_as_OT.lt_strorder).
Qed.

Lemma string_lt_irrefl (s : string) : String.compare s s ≠ Lt.
Proof.
  rewrite string_compare_OT.
  apply (@StrictOrder_Irreflexive _ _ OrdersEx.String_as_OT.lt_strorder).
Qed.

Lemma string_leb_true (s1 s2 : string) :
  String.leb s1 s2 = true → s1 ≠ s2 → String.compare s1 s2 = Lt.
Proof.
  unfold String.leb. destruct (String.compare s1 s2) eqn:E; try done.
  intros _ Hne. by apply String.compare_eq_iff in E.
Qed.

Lemma string_leb_false (s1 s2 : string) :
  String.leb s1 s2 = false → String.compare s2 s1 = Lt.
Proof.
  unfold String.leb. rewrite (String.compare_antisym s2 s1).
  by destruct (String.compare s1 s2).
Qed.

#[global] Instance key_lt_trans : Transitive key_lt.
Proof. intros x y z. apply string_lt_trans. Qed.

Lemma key_lt_asym x y : key_lt x y → key_lt y x → x = y.
Proof.
  intros H1 H2. destruct (string_lt_irrefl x.1).
  by apply (string_lt_trans _ y.1).
Qed.

(** ** [sorted(ent.items())] *)

Lemma insert_item_perm x l : insert_item x l ≡ₚ x :: l.
Proof.
  induction l as [|y l IH]; simpl; [done|].
  destruct (String.leb x.1 y.1); [done|].
  rewrite IH. apply Permutation_swap.
Qed.

Lemma sorted_items_perm (e : Entity) : sorted_items e ≡ₚ e.
Proof.
  unfold sorted_items, PyDict.items. induction e as [|x e IH]; simpl; [done|].
  by rewrite insert_item_perm, IH.
Qed.

Lemma insert_item_sorted x l :
  StronglySorted key_lt l → (∀ y, y ∈ l → y.1 ≠ x.1) →
  StronglySorted key_lt (insert_item x l).
Proof.
  induction 1 as [|y l Hl IH Hy]; intros Hfresh; simpl.
  - repeat constructor.
  - destruct (String.leb x.1 y.1) eqn:E.
    + assert (Hxy : key_lt x y).
      { apply string_leb_true; [done|]. intros Heq.
        by apply (Hfresh y); [apply list_elem_of_here|]. }
      constructor; [by constructor|]. constructor; [done|].
      eapply Forall_impl; [exact Hy|]. intros z Hz. by transitivity y.
    + constructor.
      * apply IH. intros z Hz. apply Hfresh. by apply list_elem_of_further.
      * rewrite insert_item_perm. constructor; [|done].
        by apply string_leb_false.
Qed.

(** The canonical form of an entity is strictly increasing in its keys. *)
Lemma sorted_items_sorted (e : Entity) :
  PyDict.wf e → StronglySorted key_lt (sorted_items e).
Proof.
  unfold PyDict.wf, sorted_items, PyDict.items, PyDict.keys.
  induction e as [|x e IH]; simpl; [constructor|].
  rewrite NoDup_cons. intros [Hx Hnd].
  apply insert_item_sorted; [by apply IH|].
  intros y Hy Heq. apply Hx. rewrite <- Heq.
  apply (list_elem_of_fmap_2 fst).
  by rewrite <- (sorted_items_perm e).
Qed.

(** Two dictionaries with the same items, inserted in any order, have
    the same canonical form. *)
Lemma sorted_items_canonical (e1 e2 : Entity) :
  PyDict.wf e1 → PyDict.wf e2 → e1 ≡ₚ e2 → sorted_items e1 = sorted_items e2.
Proof.
  intros Hwf1 Hwf2 Hperm.
  apply (StronglySorted_unique_strong key_lt).
  - intros x1 x2 _ _. apply key_lt_asym.
  - by apply sorted_items_sorted.
  - by apply sorted_items_sorted.
  - by rewrite !sorted_items_perm.
Qed.

(** ** Lookup failures (C7) *)

(** C7: [ecs[id]] for an id that is not in the store, and
    [filter(name, criteria)] for a name with no registered filter, raise
    [KeyError] to the caller and leave the state as it was. *)
Theorem lookup_failures_raise_KeyError :
  (∀ (w : World) (id : Z),
      id ∉ PyDict.keys (ents w) →
      EntityManager___getitem__ id w = Raise KeyError w)
  ∧ (∀ (self : EntityManager) (filter_id : string) (kw : kwargs) (w : World),
      filter_id ∉ PyDict.keys (filters self) →
      EntityManager_filter self filter_id kw w = Raise KeyError w).
Proof.
  split.
  - intros w id Hid. unfold EntityManager___getitem__.
    apply get_None in Hid. by rewrite Hid.
  - intros self filter_id kw w Hid. unfold EntityManager_filter.
    apply get_None in Hid. by rewrite Hid.
Qed.

Lemma lookup_failures_raise_KeyError_witness :
  let w := mkWorld (heap_of [(0%nat, [("id", VInt 0)])]) [(0, 0%nat)] 1 [] in
  let self := mkEntityManager [("Filter", Filter_base)] [] [] in
  EntityManager___getitem__ 1 w = Raise KeyError w
  ∧ EntityManager_filter self "Nearby" [] w = Raise KeyError w.
Proof.
  split.
  - apply (proj1 lookup_failures_raise_KeyError). compute_done.
  - apply (proj2 lookup_failures_raise_KeyError). compute_done.
Defined.

(** ** Registration in place (C10) *)

Lemma meets_id (e : Entity) : meets ["id"] e = PyDict.contains e "id".
Proof. unfold meets; simpl. by rewrite andb_true_r. Qed.

(** C10: [add_ent(e)] stores the reference [e] itself; afterwards [e]
    has the component [id] with the assigned id, its other components
    and all other objects are as before, a later change made through
    [e] is seen through the store, and the key [id] counts for criteria
    and appears in the canonical form that is hashed. *)
Theorem add_ent_in_place (ent : loc) (w : World) :
  ∃ w', EntityManager_add_ent ent w = Ok VNone w'
    ∧ PyDict.get (ents w') (ent_count w) = Some ent
    ∧ PyDict.get (deref w' ent) "id" = Some (VInt (ent_count w))
    ∧ (∀ k, k ≠ "id" → PyDict.get (deref w' ent) k = PyDict.get (deref w ent) k)
    ∧ (∀ ent', ent' ≠ ent → deref w' ent' = deref w ent')
    ∧ (∀ name v, ∃ w'' stored,
          setattr ent name v w' = Ok tt w''
          ∧ EntityManager___getitem__ (ent_count w) w'' = Ok stored w''
          ∧ PyDict.get (deref w'' stored) name = Some v)
    ∧ ent ∈ matching ["id"] w'
    ∧ ("id", VInt (ent_count w)) ∈ sorted_items (deref w' ent)
    ∧ sorted_items (deref w' ent) ∈ frozen_state w'.
Proof.
  exists (registered ent w). split; [apply add_ent_registered|].
  assert (Hstore : PyDict.get (ents (registered ent w)) (ent_count w) = Some ent)
    by apply get_setitem_eq.
  assert (Hderef := deref_registered ent w).
  assert (Hid : PyDict.get (deref (registered ent w) ent) "id"
                = Some (VInt (ent_count w))).
  { rewrite Hderef. apply get_setitem_eq. }
  assert (Hvalues : ent ∈ PyDict.values (ents (registered ent w))).
  { apply get_Some_elem in Hstore. by apply (list_elem_of_fmap_2 snd) in Hstore. }
  split_and!.
  - exact Hstore.
  - exact Hid.
  - intros k Hk. rewrite Hderef. by apply get_setitem_ne.
  - intros ent' Hne. unfold deref; simpl. by rewrite lookup_insert_ne.
  - intros name v. eexists _, ent. split; [reflexivity|]. split.
    + unfold EntityManager___getitem__. simpl. by rewrite get_setitem_eq.
    + rewrite deref_set_heap_eq. apply get_setitem_eq.
  - unfold matching. apply list_elem_of_In, filter_In. split.
    + by apply list_elem_of_In.
    + rewrite meets_id. apply contains_true.
      apply get_Some_elem in Hid. by apply (list_elem_of_fmap_2 fst) in Hid.
  - rewrite sorted_items_perm. by apply get_Some_elem.
  - unfold frozen_state.
    by apply (list_elem_of_fmap_2 (λ l, sorted_items (deref (registered ent w) l))).
Qed.

(** ** Selection by criteria (C6) *)

Lemma meets_spec (crit : list string) (e : Entity) :
  meets crit e = true ↔ ∀ comp, comp ∈ crit → comp ∈ PyDict.keys e.
Proof.
  unfold meets. rewrite forallb_forall. split.
  - intros H comp Hc. apply contains_true, H. by apply list_elem_of_In.
  - intros H comp Hc. apply contains_true, H. by apply list_elem_of_In.
Qed.

Lemma matching_spec (crit : list string) (w : World) (ent : loc) :
  ent ∈ matching crit w
  ↔ ent ∈ PyDict.values (ents w)
    ∧ ∀ comp, comp ∈ crit → comp ∈ PyDict.keys (deref w ent).
Proof.
  unfold matching. rewrite list_elem_of_In, filter_In, <- list_elem_of_In.
  by rewrite meets_spec.
Qed.

Lemma filter_sublist {A} (P : A → bool) (l : list A) : List.filter P l `sublist_of` l.
Proof.
  induction l as [|x l IH]; simpl; [constructor|].
  destruct (P x); by constructor.
Qed.

Lemma filter_all {A} (P : A → bool) (l : list A) :
  (∀ x, P x = true) → List.filter P l = l.
Proof.
  intros HP. induction l as [|x l IH]; simpl; [done|]. by rewrite HP, IH.
Qed.

(** A per-entity step that prints the entity leaves one line per call. *)
Lemma for_each_print (l : list loc) (w : World) :
  for_each l print w
  = Ok tt (set_stdout (stdout w ++ map (λ ent, Repr.repr_dict (deref w ent)) l) w).
Proof.
  revert w. induction l as [|x l IH]; intros w; simpl.
  - unfold ret. rewrite app_nil_r. by destruct w.
  - unfold bind, print at 1. rewrite IH. unfold set_stdout, deref; simpl.
    by rewrite <- app_assoc.
Qed.

(** C6: [System.step] hands the per-entity step the entities of the
    store that contain every key of the criteria, whatever the values,
    in the order of the store, one call per selected entry; empty
    criteria select every entity.  With criteria [A], [B] and a store
    holding [{A, B, C}] and [{A}], the step runs once, on the first. *)
Theorem System_step_selects (name : string) (crit : list string)
    (individual : loc → M unit) (w : World) :
  step (System_per_entity name crit individual) w
    = for_each (matching crit w) individual w
  ∧ (∀ ent, ent ∈ matching crit w
            ↔ ent ∈ PyDict.values (ents w)
              ∧ ∀ comp, comp ∈ crit → comp ∈ PyDict.keys (deref w ent))
  ∧ matching crit w `sublist_of` PyDict.values (ents w)
  ∧ (NoDup (PyDict.values (ents w)) → NoDup (matching crit w))
  ∧ matching [] w = PyDict.values (ents w)
  ∧ step (System_per_entity name crit print) w
    = Ok tt (set_stdout
               (stdout w ++ map (λ ent, Repr.repr_dict (deref w ent)) (matching crit w))
               w)
  ∧ (let w0 := mkWorld (heap_of [(1%nat, [("A", VInt 1); ("B", VInt 2); ("C", VInt 3)]);
                                 (2%nat, [("A", VInt 1)])])
                       [(0, 1%nat); (1, 2%nat)] 2 [] in
     matching ["A"; "B"] w0 = [1%nat]
     ∧ step (System_per_entity name ["A"; "B"] individual) w0 = (individual 1%nat ;;; ret tt) w0
     ∧ step (System_per_entity name ["A"; "B"] print) w0
       = Ok tt (set_stdout ["{'A': 1, 'B': 2, 'C': 3}"] w0)).
Proof.
  split_and!.
  - reflexivity.
  - apply matching_spec.
  - apply filter_sublist.
  - unfold matching. rewrite !NoDup_ListNoDup. apply List.NoDup_filter.
  - unfold matching. by apply filter_all.
  - simpl. unfold System_step, System_do_step_all, bind, get_world.
    apply for_each_print.
  - intros w0. split_and!; reflexivity.
Qed.

(** ** Filters (C8) *)

Lemma map_M_query {A B} (f : A → M B) (r : A → B) (l : list A) (w : World) :
  (∀ x, x ∈ l → f x w = Ok (r x) w) → map_M f l w = Ok (map r l) w.
Proof.
  induction l as [|x l IH]; intros Hf; simpl; [done|].
  unfold bind. rewrite Hf by apply list_elem_of_here.
  rewrite IH; [done|]. intros y Hy. apply Hf. by apply list_elem_of_further.
Qed.

Lemma collect_ids_entities (results : list pyobj) (w : World) :
  (∀ o, o ∈ results → truthy w o = true → ∃ ent, o = PyEntity ent) →
  collect_ids results w = Ok (map (id_of w) (List.filter (truthy w) results)) w.
Proof.
  induction results as [|o results IH]; intros Hent; simpl; [done|].
  unfold bind, get_world.
  assert (IH' : collect_ids results w
                = Ok (map (id_of w) (List.filter (truthy w) results)) w).
  { apply IH. intros o' Ho'. apply Hent. by apply list_elem_of_further. }
  destruct (truthy w o) eqn:Ht; [|exact IH'].
  destruct (Hent o (list_elem_of_here _ _) Ht) as [ent ->].
  simpl. by rewrite IH'.
Qed.

(** C8: for a per-entity predicate that only reads the world and whose
    matches are entities, [Filter.apply] evaluates it on every entity of
    the store and returns the ids of the matches in the order of the
    store; with no match the result is the empty list, not a failure,
    and so it is for the default predicate on every store. *)
Theorem Filter_apply_matches (individual : loc → kwargs → M pyobj)
    (result : loc → pyobj) (crit : kwargs) (w : World) :
  (∀ ent, ent ∈ PyDict.values (ents w) → individual ent crit w = Ok (result ent) w) →
  (∀ ent, ent ∈ PyDict.values (ents w) → truthy w (result ent) = true →
          ∃ ent', result ent = PyEntity ent') →
  let matches := List.filter (truthy w) (map result (PyDict.values (ents w))) in
  Filter_apply individual crit w = Ok (map (id_of w) matches) w
  ∧ (matches = [] → Filter_apply individual crit w = Ok [] w)
  ∧ apply Filter_base crit w = Ok [] w.
Proof.
  intros Hquery Hent matches.
  assert (Hmap : ∀ (r : loc → pyobj),
            (∀ ent, ent ∈ PyDict.values (ents w) → individual ent crit w = Ok (r ent) w) →
            map_M (λ '(id, ent), individual ent crit) (PyDict.items (ents w)) w
            = Ok (map r (PyDict.values (ents w))) w).
  { intros r Hr. unfold PyDict.values, PyDict.items. rewrite map_map.
    apply (map_M_query _ (λ kv, r kv.2)).
    intros [id ent] Hin; simpl. apply Hr.
    by apply (list_elem_of_fmap_2 snd) in Hin. }
  assert (Happly : Filter_apply individual crit w = Ok (map (id_of w) matches) w).
  { unfold Filter_apply, bind, get_world. rewrite (Hmap result Hquery).
    apply collect_ids_entities. intros o Ho Ht.
    apply list_elem_of_fmap in Ho as (ent & -> & Hin). by apply Hent. }
  split_and!.
  - exact Happly.
  - intros Hnil. by rewrite Happly, Hnil.
  - simpl. unfold Filter_apply, bind, get_world.
    unfold PyDict.items. rewrite (map_M_query _ (λ _, PyValue VNone)).
    + generalize (ents w). intros d. induction d as [|kv d IH]; simpl; [done|].
      unfold bind, get_world. simpl. exact IH.
    + by intros [id ent] _.
Qed.

Lemma Filter_apply_matches_witness :
  let w := mkWorld (heap_of [(5%nat, [("hp", VInt 3); ("id", VInt 0)]);
                             (6%nat, [("id", VInt 1)]);
                             (7%nat, [("hp", VInt 9); ("id", VInt 2)])])
                   [(0, 5%nat); (1, 6%nat); (2, 7%nat)] 3 [] in
  Filter_apply has_hp [] w = Ok [VInt 0; VInt 2] w.
Proof.
  intros w.
  refine (proj1 (Filter_apply_matches has_hp
            (λ ent, if PyDict.contains (deref w ent) "hp"
                    then PyEntity ent else PyValue VNone) [] w _ _)).
  - intros ent _. reflexivity.
  - intros ent _. destruct (PyDict.contains (deref w ent) "hp"); [by eauto | done].
Defined.

(** ** DeletionSystem (C5) *)

Lemma setitem_keys_present {K V} `{EqDecision K} (d : pydict K V) k v :
  k ∈ PyDict.keys d → PyDict.keys (PyDict.setitem d k v) = PyDict.keys d.
Proof.
  induction d as [|[k' v'] d IH]; simpl.
  - intros Hin. by apply elem_of_nil in Hin.
  - intros Hin. destruct (decide (k = k')) as [->|Hne]; [done|]. simpl.
    apply elem_of_cons in Hin as [->|Hin]; [done|]. by rewrite IH.
Qed.

Lemma elem_get {K V} `{EqDecision K} (d : pydict K V) k v :
  PyDict.wf d → (k, v) ∈ d → PyDict.get d k = Some v.
Proof.
  unfold PyDict.wf. induction d as [|[k' v'] d IH]; simpl.
  - intros _ Hin. by apply elem_of_nil in Hin.
  - rewrite NoDup_cons. intros [Hk' Hnd] Hin.
    apply elem_of_cons in Hin as [[= -> ->]|Hin].
    + by rewrite decide_True.
    + rewrite decide_False; [by apply IH|].
      intros ->. apply Hk'. by apply (list_elem_of_fmap_2 fst) in Hin.
Qed.

Lemma delitem_sublist {K V} `{EqDecision K} (d d' : pydict K V) k :
  PyDict.delitem d k = Some d' → d' `sublist_of` d ∧ length d = S (length d').
Proof.
  revert d'. induction d as [|[k' v'] d IH]; simpl; [done|].
  intros d'. destruct (decide (k = k')) as [->|Hne].
  - intros [= ->]. split; [by apply sublist_cons | done].
  - destruct (PyDict.delitem d k) as [d''|]; [|done].
    intros [= <-]. destruct (IH d'' eq_refl) as [Hsub Hlen].
    split; [by apply sublist_skip | simpl; by rewrite Hlen].
Qed.

Lemma delitem_get_ne {K V} `{EqDecision K} (d d' : pydict K V) k k' :
  PyDict.delitem d k = Some d' → k' ≠ k → PyDict.get d' k' = PyDict.get d k'.
Proof.
  revert d'. induction d as [|[k0 v0] d IH]; simpl; [done|].
  intros d'. destruct (decide (k = k0)) as [->|Hne].
  - intros [= ->] Hk'. by rewrite decide_False.
  - destruct (PyDict.delitem d k) as [d''|]; [|done].
    intros [= <-] Hk'. simpl. destruct (decide (k' = k0)); [done|]. by apply IH.
Qed.

Lemma delitem_get_eq {K V} `{EqDecision K} (d d' : pydict K V) k :
  PyDict.wf d → PyDict.delitem d k = Some d' → PyDict.get d' k = None.
Proof.
  unfold PyDict.wf. revert d'. induction d as [|[k0 v0] d IH]; simpl; [done|].
  intros d'. rewrite NoDup_cons. intros [Hk0 Hnd].
  destruct (decide (k = k0)) as [->|Hne].
  - intros [= ->]. by apply get_None.
  - destruct (PyDict.delitem d k) as [d''|]; [|done].
    intros [= <-]. simpl. rewrite decide_False by done. by apply IH.
Qed.

Lemma delitem_absent {K V} `{EqDecision K} (d : pydict K V) k :
  PyDict.delitem d k = None ↔ k ∉ PyDict.keys d.
Proof.
  induction d as [|[k0 v0] d IH]; simpl.
  - split; [intros _; apply not_elem_of_nil | done].
  - rewrite not_elem_of_cons. destruct (decide (k = k0)) as [->|Hne].
    + split; [done | intros [? _]; done].
    + destruct (PyDict.delitem d k); split; try tauto; try done.
      * intros [_ Hout]. by apply IH in Hout.
Qed.

Lemma delitem_wf {K V} `{EqDecision K} (d d' : pydict K V) k :
  PyDict.wf d → PyDict.delitem d k = Some d' → PyDict.wf d'.
Proof.
  unfold PyDict.wf, PyDict.keys. intros Hwf Hdel.
  apply (sublist_NoDup _ (map fst d)); [done|].
  apply fmap_sublist. by apply delitem_sublist in Hdel as [? _].
Qed.

Lemma filter_wf {K V} `{EqDecision K} (P : K * V → bool) (d : pydict K V) :
  PyDict.wf d → PyDict.wf (List.filter P d).
Proof.
  unfold PyDict.wf, PyDict.keys. intros Hwf.
  apply (sublist_NoDup _ (map fst d)); [done|].
  apply fmap_sublist, filter_sublist.
Qed.

Lemma del_ent_ok (id : value) (w w1 : World) :
  del_ent id w = Ok tt w1 →
  ∃ k, value_key id = Some k
       ∧ k ∈ PyDict.keys (ents w)
       ∧ PyDict.delitem (ents w) k = Some (ents w1)
       ∧ heap w1 = heap w ∧ ent_count w1 = ent_count w.
Proof.
  unfold del_ent. destruct (value_key id) as [k|]; [|done].
  destruct (PyDict.delitem (ents w) k) as [d|] eqn:Hdel; [|done].
  intros [= <-]. exists k. split_and!; try done.
  destruct (decide (k ∈ PyDict.keys (ents w))) as [Hin|Hout]; [done|].
  apply delitem_absent in Hout. congruence.
Qed.

Lemma del_ent_raise (id : value) (w w1 : World) (e : exn) :
  del_ent id w = Raise e w1 → e = KeyError ∧ w1 = w.
Proof.
  unfold del_ent. destruct (value_key id) as [k|]; [|by intros [= <- <-]].
  destruct (PyDict.delitem (ents w) k); [done | by intros [= <- <-]].
Qed.

(** A loop of deletions ends normally only on distinct keys of the store. *)
Lemma for_each_del_ent_ok (ids : list value) (w w' : World) :
  PyDict.wf (ents w) → for_each ids del_ent w = Ok tt w' →
  ∃ ks, map value_key ids = map Some ks
        ∧ NoDup ks
        ∧ ∀ k, k ∈ ks → k ∈ PyDict.keys (ents w).
Proof.
  revert w. induction ids as [|id ids IH]; intros w Hwf Hrun.
  - exists []. split_and!; [done | constructor | by intros k Hk%elem_of_nil].
  - simpl in Hrun. unfold bind in Hrun.
    destruct (del_ent id w) as [[] w1|e w1] eqn:Hdel; [|done].
    apply del_ent_ok in Hdel as (k & Hk & Hin & Hdel & _ & _).
    destruct (IH w1) as (ks & Hks & Hnd & Hsub); [by eapply delitem_wf | done |].
    exists (k :: ks). split_and!.
    + simpl. by rewrite Hk, Hks.
    + constructor; [|done]. intros Hkk. apply Hsub in Hkk.
      apply get_None in Hkk; [done|]. by apply (delitem_get_eq (ents w)).
    + intros k' Hk'. apply elem_of_cons in Hk' as [->|Hk']; [done|].
      apply (delitem_keys _ _ _ Hdel). by apply Hsub.
Qed.

Lemma matching_items (crit : list string) (w : World) :
  matching crit w
  = PyDict.values (List.filter (λ kv, meets crit (deref w kv.2)) (ents w)).
Proof.
  unfold matching, PyDict.values. generalize (ents w). intros d.
  induction d as [|[k ent] d IH]; simpl; [done|].
  destruct (meets crit (deref w ent)); simpl; by rewrite IH.
Qed.

Lemma wf_app_cons {V} (pre : pydict Z V) k v d :
  PyDict.wf (pre ++ (k, v) :: d) →
  (k ∉ PyDict.keys pre) ∧ (k ∉ PyDict.keys d) ∧ PyDict.wf (pre ++ d).
Proof.
  unfold PyDict.wf, PyDict.keys. rewrite !map_app. simpl.
  intros Hnd. apply NoDup_app in Hnd as (Hpre & Hdisj & Hd).
  apply NoDup_cons in Hd as [Hk Hd]. split_and!.
  - intros Hin. apply (Hdisj k Hin). apply list_elem_of_here.
  - exact Hk.
  - apply NoDup_app. split_and!; [done| |done].
    intros x Hx Hx'. apply (Hdisj x Hx). by apply list_elem_of_further.
Qed.

(** Deleting, one after the other, the keys of the entries that satisfy
    [P] leaves the other entries, in their order. *)
Lemma for_each_del_ent (P : Z * loc → bool) (d pre : pydict Z loc)
    (ids : list value) (w : World) :
  ents w = pre ++ d →
  PyDict.wf (pre ++ d) →
  Forall2 (λ id kv, value_key id = Some kv.1) ids (List.filter P d) →
  for_each ids del_ent w
  = Ok tt (set_ents (pre ++ List.filter (λ kv, negb (P kv)) d) w).
Proof.
  revert pre ids w. induction d as [|[k ent] d IH]; intros pre ids w Hents Hwf Hids.
  - simpl in *. apply Forall2_nil_inv_r in Hids as ->. simpl.
    rewrite <- Hents. by destruct w.
  - simpl in Hids. simpl List.filter. destruct (P (k, ent)) eqn:HP; simpl.
    + apply Forall2_cons_inv_r in Hids as (id & ids' & Hid & Hids' & ->).
      simpl in Hid. destruct (wf_app_cons _ _ _ _ Hwf) as (Hpre & _ & Hwf').
      simpl. unfold bind at 1. unfold del_ent at 1. rewrite Hid, Hents.
      rewrite delitem_app by done.
      rewrite (IH pre ids' (set_ents (pre ++ d) w)); [done|done|done|done].
    + rewrite (IH (pre ++ [(k, ent)]) ids w).
      * by rewrite <- app_assoc.
      * by rewrite <- app_assoc.
      * by rewrite <- app_assoc.
      * done.
Qed.

(** Registering an object that is not yet in the store keeps every
    entity under the id it carries. *)
Lemma registered_own_ids (ent : loc) (w : World) :
  own_ids w → below_counter w → ent ∉ PyDict.values (ents w) →
  own_ids (registered ent w).
Proof.
  intros [Hwf Hown] Hbelow Hnew.
  assert (Hfresh : ent_count w ∉ PyDict.keys (ents w)).
  { intros Hin. apply Hbelow in Hin. lia. }
  unfold own_ids. cbn [registered ents]. rewrite setitem_fresh by done. split.
  - unfold PyDict.wf, PyDict.keys in *. rewrite map_app. apply NoDup_app.
    split_and!; [done| |apply NoDup_singleton].
    intros k Hk Hk'. apply list_elem_of_singleton in Hk' as ->. by apply Hfresh.
  - intros id ent' Hin. apply elem_of_app in Hin as [Hin|Hin].
    + assert (Hne : ent' ≠ ent).
      { intros ->. apply Hnew. by apply (list_elem_of_fmap_2 snd) in Hin. }
      unfold deref, registered; cbn [heap]. rewrite lookup_insert_ne by done.
      by apply Hown.
    + apply list_elem_of_singleton in Hin as [= -> ->].
      rewrite deref_registered. apply get_setitem_eq.
Qed.

Lemma own_ids_flagged (w : World) :
  own_ids w →
  ∀ id ent, (id, ent) ∈ ents w → flagged w (id, ent) = true →
    value_key (Entity___getattr__ (deref w ent) "id") = Some id.
Proof.
  intros [_ Hown] id ent Hin _. unfold Entity___getattr__.
  by rewrite (Hown id ent Hin).
Qed.

Lemma DeletionSystem_step_eq w :
  step DeletionSystem w
  = for_each (map (λ ent, Entity___getattr__ (deref w ent) "id")
                  (matching ["delete"; "id"] w)) del_ent w.
Proof. reflexivity. Qed.

Lemma filter_ext_elem {A} (P Q : A → bool) (l : list A) :
  (∀ x, x ∈ l → P x = Q x) → List.filter P l = List.filter Q l.
Proof.
  induction l as [|a l IH]; simpl; intros H; [done|].
  rewrite (H a) by apply list_elem_of_here.
  rewrite IH; [done|]. intros x Hx. apply H. by apply list_elem_of_further.
Qed.

Lemma filter_keep {A} (P : A → bool) (l : list A) :
  (∀ x, x ∈ l → P x = true) → List.filter P l = l.
Proof.
  induction l as [|a l IH]; simpl; intros H; [done|].
  rewrite (H a) by apply list_elem_of_here.
  rewrite IH; [done|]. intros x Hx. apply H. by apply list_elem_of_further.
Qed.

Lemma filter_twice {A} (P Q : A → bool) (l : list A) :
  List.filter P (List.filter Q l) = List.filter (λ x, Q x && P x) l.
Proof.
  induction l as [|a l IH]; simpl; [done|].
  destruct (Q a); simpl; [|done]. destruct (P a); by rewrite IH.
Qed.

(** Two selections of a list without repetition are the same list only
    when the two tests agree on its elements. *)
Lemma filter_eq_pointwise {A} (P Q : A → bool) (l : list A) :
  NoDup l → List.filter P l = List.filter Q l → ∀ x, x ∈ l → P x = Q x.
Proof.
  induction l as [|a l IH]; intros Hnd Heq x Hx; [by apply elem_of_nil in Hx|].
  apply NoDup_cons in Hnd as [Ha Hnd]. simpl in Heq.
  assert (∀ R : A → bool, a ∉ List.filter R l) as Hout.
  { intros R Hin. apply Ha. by apply (elem_of_sublist _ _ _ Hin), filter_sublist. }
  destruct (P a) eqn:HP, (Q a) eqn:HQ.
  - injection Heq as Heq. apply elem_of_cons in Hx as [->|Hx]; [congruence|by apply IH].
  - exfalso. apply (Hout Q). rewrite <- Heq. apply list_elem_of_here.
  - exfalso. apply (Hout P). rewrite Heq. apply list_elem_of_here.
  - apply elem_of_cons in Hx as [->|Hx]; [congruence|by apply IH].
Qed.

Lemma wf_NoDup {K V} `{EqDecision K} (d : pydict K V) : PyDict.wf d → NoDup d.
Proof. unfold PyDict.wf, PyDict.keys. apply NoDup_fmap_1. Qed.

Lemma wf_same_key {K V} `{EqDecision K} (d : pydict K V) k v v' :
  PyDict.wf d → (k, v) ∈ d → (k, v') ∈ d → v = v'.
Proof.
  unfold PyDict.wf, PyDict.keys. induction d as [|[k0 v0] d IH]; simpl.
  - intros _ Hin. by apply elem_of_nil in Hin.
  - rewrite NoDup_cons. intros [Hk0 Hnd] Hin Hin'.
    apply elem_of_cons in Hin as [Heq|Hin];
      apply elem_of_cons in Hin' as [Heq'|Hin']; simplify_eq.
    + done.
    + exfalso. apply Hk0. by apply (list_elem_of_fmap_2 fst) in Hin'.
    + exfalso. apply Hk0. by apply (list_elem_of_fmap_2 fst) in Hin.
    + by apply IH.
Qed.

Lemma delitem_filter {V} (d : pydict Z V) (k : Z) :
  PyDict.wf d → k ∈ PyDict.keys d →
  PyDict.delitem d k = Some (List.filter (λ kv, bool_decide (kv.1 ≠ k)) d).
Proof.
  unfold PyDict.wf. induction d as [|[k' v'] d IH]; simpl.
  - intros _ Hin. by apply elem_of_nil in Hin.
  - rewrite NoDup_cons. intros [Hk' Hnd] Hin.
    destruct (decide (k = k')) as [->|Hne].
    + rewrite bool_decide_eq_false_2 by (intros H; by apply H).
      f_equal. symmetry. apply filter_keep. intros [k v] Hkv.
      apply bool_decide_eq_true_2. simpl. intros ->.
      apply Hk'. by apply (list_elem_of_fmap_2 fst) in Hkv.
    + apply elem_of_cons in Hin as [->|Hin]; [done|].
      rewrite (IH Hnd Hin). by rewrite bool_decide_eq_true_2.
Qed.

(** Deleting distinct keys of the store, one after the other, leaves the
    entries under the other keys, in their order. *)
Lemma for_each_del_keys (ks : list Z) (ids : list value) (w : World) :
  PyDict.wf (ents w) → map value_key ids = map Some ks → NoDup ks →
  (∀ k, k ∈ ks → k ∈ PyDict.keys (ents w)) →
  for_each ids del_ent w
  = Ok tt (set_ents (List.filter (λ kv, bool_decide (kv.1 ∉ ks)) (ents w)) w).
Proof.
  revert ids w. induction ks as [|k ks IH]; intros [|id ids] w Hwf Hids Hnd Hsub;
    try discriminate Hids.
  - simpl. rewrite filter_keep; [by destruct w|].
    intros kv _. reflexivity.
  - simpl in Hids. injection Hids as Hid Hids. apply NoDup_cons in Hnd as [Hk Hnd].
    simpl. unfold bind. unfold del_ent at 1. rewrite Hid.
    rewrite delitem_filter by (done || apply Hsub, list_elem_of_here).
    rewrite IH; [| | done | done | ].
    + f_equal. destruct w as [h d c o]. unfold set_ents; simpl. f_equal.
      rewrite filter_twice. apply filter_ext_elem. intros [k' v] _. simpl.
      destruct (decide (k' = k)) as [->|Hne].
      * rewrite (bool_decide_eq_false_2 (k ≠ k)) by (intros H; by apply H).
        simpl. symmetry. apply bool_decide_eq_false_2. intros H. apply H, list_elem_of_here.
      * rewrite (bool_decide_eq_true_2 (k' ≠ k)) by done. simpl.
        apply bool_decide_ext. rewrite not_elem_of_cons. tauto.
    + change (ents (set_ents ?d _)) with d. by apply filter_wf.
    + intros k' Hk'. change (ents (set_ents ?d _)) with d.
      assert (k' ∈ PyDict.keys (ents w)) as Hin
        by (apply Hsub; by apply list_elem_of_further).
      apply list_elem_of_fmap in Hin as ([k0 v] & -> & Hin).
      apply (list_elem_of_fmap_2 fst (List.filter _ _) (k0, v)).
      apply list_elem_of_In, filter_In. split; [by apply list_elem_of_In|].
      apply bool_decide_eq_true_2. simpl. intros ->. done.
Qed.

Lemma carried_ids_flagged (w : World) :
  carried_ids w
  = map (λ kv, value_key (Entity___getattr__ (deref w kv.2) "id"))
        (List.filter (flagged w) (ents w)).
Proof.
  unfold carried_ids. rewrite matching_items. unfold PyDict.values.
  by rewrite map_map.
Qed.

Lemma flagged_keys_spec (w : World) (kv : Z * loc) :
  PyDict.wf (ents w) → kv ∈ ents w →
  kv.1 ∈ flagged_keys w ↔ flagged w kv = true.
Proof.
  intros Hwf Hin. unfold flagged_keys, PyDict.keys. destruct kv as [k ent]. split.
  - intros Hk. apply list_elem_of_fmap in Hk as ([k' ent'] & Hkk & Hk).
    simpl in Hkk. subst k'. apply list_elem_of_In, filter_In in Hk as [Hk Hfl].
    apply list_elem_of_In in Hk.
    by rewrite (wf_same_key _ _ _ _ Hwf Hin Hk).
  - intros Hfl. apply (list_elem_of_fmap_2 fst (List.filter _ _) (k, ent)).
    apply list_elem_of_In, filter_In. split; [by apply list_elem_of_In | done].
Qed.

(** When the ids that the flagged entities carry are distinct keys of
    the store, the step ends normally and removes the entries under
    these keys. *)
Lemma DeletionSystem_step_keys (w : World) (ks : list Z) :
  PyDict.wf (ents w) → carried_ids w = map Some ks → NoDup ks →
  (∀ k, k ∈ ks → k ∈ PyDict.keys (ents w)) →
  step DeletionSystem w
  = Ok tt (set_ents (List.filter (λ kv, bool_decide (kv.1 ∉ ks)) (ents w)) w).
Proof.
  intros Hwf Hids Hnd Hsub. rewrite DeletionSystem_step_eq.
  apply for_each_del_keys; [done| |done|done].
  rewrite map_map. exact Hids.
Qed.

Lemma DeletionSystem_step_perm (w : World) :
  PyDict.wf (ents w) → carried_ids w ≡ₚ map Some (flagged_keys w) →
  step DeletionSystem w
  = Ok tt (set_ents (List.filter (λ kv, negb (flagged w kv)) (ents w)) w).
Proof.
  intros Hwf Hperm.
  apply Permutation_map_inv in Hperm as (ks & Hids & Hks).
  assert (NoDup (flagged_keys w)) as Hnd by by apply filter_wf.
  rewrite (DeletionSystem_step_keys w ks); [|done|done| |].
  - do 2 f_equal. apply filter_ext_elem. intros kv Hkv.
    destruct (flagged w kv) eqn:Hfl; simpl.
    + apply bool_decide_eq_false_2. intros Hout. apply Hout.
      rewrite <- Hks. by apply flagged_keys_spec.
    + apply bool_decide_eq_true_2. rewrite <- Hks.
      rewrite flagged_keys_spec by done. congruence.
  - by rewrite <- Hks.
  - intros k Hk. rewrite <- Hks in Hk. unfold flagged_keys, PyDict.keys in *.
    apply (elem_of_sublist _ _ _ Hk), fmap_sublist, filter_sublist.
Qed.

Lemma DeletionSystem_step_perm_inv (w w' : World) :
  PyDict.wf (ents w) → step DeletionSystem w = Ok tt w' →
  ents w' = List.filter (λ kv, negb (flagged w kv)) (ents w) →
  carried_ids w ≡ₚ map Some (flagged_keys w).
Proof.
  intros Hwf Hrun Hents.
  pose proof Hrun as Hok. rewrite DeletionSystem_step_eq in Hok.
  apply for_each_del_ent_ok in Hok as (ks & Hids & Hnd & Hsub); [|done].
  rewrite map_map in Hids. fold (carried_ids w) in Hids.
  rewrite (DeletionSystem_step_keys w ks) in Hrun by done.
  injection Hrun as <-. change (ents (set_ents ?d _)) with d in Hents.
  pose proof (filter_eq_pointwise _ _ _ (wf_NoDup _ Hwf) Hents) as Hpt.
  rewrite Hids. apply fmap_Permutation. apply NoDup_Permutation; [done|by apply filter_wf|].
  intros k. split.
  - intros Hk. pose proof (Hsub k Hk) as Hin.
    apply list_elem_of_fmap in Hin as ([k0 ent] & -> & Hin).
    apply (flagged_keys_spec w (k0, ent)); [done|done|].
    specialize (Hpt _ Hin). simpl in Hpt.
    rewrite bool_decide_eq_false_2 in Hpt by (intros H; by apply H).
    by destruct (flagged w (k0, ent)).
  - intros Hk. unfold flagged_keys, PyDict.keys in Hk.
    apply list_elem_of_fmap in Hk as ([k0 ent] & -> & Hk).
    apply list_elem_of_In, filter_In in Hk as [Hin Hfl].
    apply list_elem_of_In in Hin. specialize (Hpt _ Hin). simpl in Hpt.
    rewrite Hfl in Hpt. simpl in Hpt. apply bool_decide_eq_false in Hpt.
    by apply dec_stable.
Qed.

Lemma own_ids_carried (w : World) :
  (∀ id ent, (id, ent) ∈ ents w → flagged w (id, ent) = true →
     value_key (Entity___getattr__ (deref w ent) "id") = Some id) →
  carried_ids w = map Some (flagged_keys w).
Proof.
  intros Hids. rewrite carried_ids_flagged. unfold flagged_keys, PyDict.keys.
  rewrite map_map. apply map_ext_in. intros [id ent] Hin.
  apply filter_In in Hin as [Hin Hfl]. apply Hids; [by apply list_elem_of_In|done].
Qed.

(** C5, as stated, fails: an entity that has both keys and carries the
    id of another entity makes the step remove that other entity, which
    has no [delete], and stay in the store itself. *)
Lemma DeletionSystem_step_foreign_id :
  ents foreign_id_world = [(1, 10%nat); (2, 20%nat)]
  ∧ flagged foreign_id_world (1, 10%nat) = true
  ∧ flagged foreign_id_world (2, 20%nat) = false
  ∧ ∃ w', step DeletionSystem foreign_id_world = Ok tt w'
      ∧ ents w' = [(1, 10%nat)]
      ∧ ¬ (∀ id ent, (id, ent) ∈ ents w'
             ↔ (id, ent) ∈ ents foreign_id_world
               ∧ ¬ ("delete" ∈ PyDict.keys (deref foreign_id_world ent)
                    ∧ "id" ∈ PyDict.keys (deref foreign_id_world ent))).
Proof.
  split_and!; [reflexivity..|].
  exists (set_ents [(1, 10%nat)] foreign_id_world).
  split_and!; [by vm_compute|reflexivity|].
  intros H. destruct (H 1 10%nat) as [Hin _].
  destruct Hin as [_ Hnot]; [apply list_elem_of_here|].
  apply Hnot. split; compute_done.
Qed.

(** C5 (amended): on a store in which the ids that the entities having
    both [delete] and [id] carry are, in some order, the keys under
    which these entities are stored, one step of [DeletionSystem] reads
    the ids of all these entities and then deletes them; the store keeps
    exactly the entries whose entity lacks [delete] or [id], in their
    order, and no entity object changes.  The step does this on no other
    store; a store whose flagged entities are stored under the id they
    carry is such a store. *)
Theorem DeletionSystem_step_removes_flagged (w : World) :
  PyDict.wf (ents w) →
  (carried_ids w ≡ₚ map Some (flagged_keys w) →
   ∃ w', step DeletionSystem w = Ok tt w'
     ∧ step DeletionSystem w
       = for_each (map (λ ent, Entity___getattr__ (deref w ent) "id")
                       (matching ["delete"; "id"] w)) del_ent w
     ∧ ents w' = List.filter (λ kv, negb (flagged w kv)) (ents w)
     ∧ (∀ id ent, (id, ent) ∈ ents w'
          ↔ (id, ent) ∈ ents w
            ∧ ¬ ("delete" ∈ PyDict.keys (deref w ent) ∧ "id" ∈ PyDict.keys (deref w ent)))
     ∧ heap w' = heap w
     ∧ ent_count w' = ent_count w)
  ∧ ((∃ w', step DeletionSystem w = Ok tt w'
        ∧ ents w' = List.filter (λ kv, negb (flagged w kv)) (ents w)) →
     carried_ids w ≡ₚ map Some (flagged_keys w))
  ∧ ((∀ id ent, (id, ent) ∈ ents w → flagged w (id, ent) = true →
        value_key (Entity___getattr__ (deref w ent) "id") = Some id) →
     carried_ids w ≡ₚ map Some (flagged_keys w)).
Proof.
  intros Hwf. split_and!.
  - intros Hperm.
    exists (set_ents (List.filter (λ kv, negb (flagged w kv)) (ents w)) w).
    split_and!; try done.
    + by apply DeletionSystem_step_perm.
    + intros id ent. change (ents (set_ents ?d _)) with d.
      rewrite (list_elem_of_In (List.filter _ _)), filter_In, <- list_elem_of_In.
      unfold flagged. cbn [snd]. rewrite negb_true_iff, <- not_true_iff_false.
      rewrite meets_spec. apply and_iff_compat_l. apply not_iff_compat. split.
      * intros H. split; apply H; [apply list_elem_of_here|].
        apply list_elem_of_further, list_elem_of_here.
      * intros [Hd Hi] comp Hc.
        apply elem_of_cons in Hc as [->|Hc]; [done|].
        apply elem_of_cons in Hc as [->|Hc]; [done|].
        by apply elem_of_nil in Hc.
  - intros (w' & Hrun & Hents). by apply (DeletionSystem_step_perm_inv w w').
  - intros Hids. by rewrite own_ids_carried.
Qed.

Lemma DeletionSystem_step_removes_flagged_witness :
  ∃ w', step DeletionSystem flagged_world = Ok tt w'
        ∧ ents w' = [(2, 20%nat)]
        ∧ heap w' = heap flagged_world.
Proof.
  destruct (DeletionSystem_step_removes_flagged flagged_world)
    as [Hstep _]; [compute_done|].
  destruct Hstep as (w' & Hrun & _ & Hents & _ & Hheap & _); [reflexivity|].
  exists w'. split_and!; [exact Hrun | exact Hents | exact Hheap].
Defined.

(** ** Identifiers over the life of a manager (C4) *)

Lemma run_app ops1 ops2 w : run (ops1 ++ ops2) w = run ops2 (run ops1 w).
Proof. unfold run. apply foldl_app. Qed.

Lemma del_ent_world id w :
  (∀ k, k ∈ PyDict.keys (ents (world_of (del_ent id w))) → k ∈ PyDict.keys (ents w))
  ∧ ent_count (world_of (del_ent id w)) = ent_count w.
Proof.
  unfold del_ent. destruct (value_key id) as [k0|]; [|done].
  destruct (PyDict.delitem (ents w) k0) as [d|] eqn:E; [|done].
  split; [|done]. simpl. by apply (delitem_keys _ k0).
Qed.

Lemma for_each_del_ent_world ids w :
  (∀ k, k ∈ PyDict.keys (ents (world_of (for_each ids del_ent w)))
        → k ∈ PyDict.keys (ents w))
  ∧ ent_count (world_of (for_each ids del_ent w)) = ent_count w.
Proof.
  revert w. induction ids as [|id ids IH]; intros w; simpl; [done|].
  destruct (del_ent_world id w) as [Hkeys Hcount].
  unfold bind. destruct (del_ent id w) as [[] w'|e w'] eqn:E; simpl in *.
  - destruct (IH w') as [Hkeys' Hcount']. split.
    + intros k Hk. by apply Hkeys, Hkeys'.
    + by rewrite Hcount'.
  - done.
Qed.

Lemma run_op_count o w :
  ent_count (run_op o w)
  = match o with Register _ => ent_count w + 1 | _ => ent_count w end.
Proof.
  destruct o as [ent|id|]; cbn [run_op].
  - by rewrite add_ent_registered.
  - apply del_ent_world.
  - rewrite DeletionSystem_step_eq. apply for_each_del_ent_world.
Qed.

Lemma run_op_below_counter o w : below_counter w → below_counter (run_op o w).
Proof.
  intros Hw k. rewrite run_op_count. destruct o as [ent|id|]; cbn [run_op].
  - rewrite add_ent_registered. cbn [world_of registered ents].
    rewrite keys_setitem. intros [->|Hk]; [lia|]. apply Hw in Hk. lia.
  - intros Hk. by apply Hw, (del_ent_world id w).
  - rewrite DeletionSystem_step_eq. intros Hk.
    apply Hw. revert Hk. apply for_each_del_ent_world.
Qed.

Lemma run_below_counter ops w : below_counter w → below_counter (run ops w).
Proof.
  revert w. induction ops as [|o ops IH]; intros w Hw; [done|].
  apply IH. by apply run_op_below_counter.
Qed.

Lemma run_count_mono ops w : ent_count w ≤ ent_count (run ops w).
Proof.
  revert w. induction ops as [|o ops IH]; intros w; simpl; [lia|].
  etransitivity; [|apply IH]. rewrite run_op_count. destruct o; lia.
Qed.

Lemma assigned_register ent w :
  Entity___getattr__ (deref (run_op (Register ent) w) ent) "id" = VInt (ent_count w).
Proof.
  cbn [run_op]. rewrite add_ent_registered. cbn [world_of].
  rewrite deref_registered. unfold Entity___getattr__, Entity___setattr__.
  by rewrite get_setitem_eq.
Qed.

Lemma assigned_sequential ops w :
  assigned ops w = map VInt (seqZ (ent_count w) (Z.of_nat (registrations ops))).
Proof.
  revert w. induction ops as [|o ops IH]; intros w; [done|].
  destruct o as [ent|id|].
  - cbn [assigned]. rewrite assigned_register.
    unfold registrations. cbn [List.filter length]. fold (registrations ops).
    rewrite Nat2Z.inj_succ, seqZ_cons by lia.
    rewrite IH, run_op_count. cbn [map]. do 3 f_equal. lia.
  - cbn [assigned]. by rewrite IH, run_op_count.
  - cbn [assigned]. by rewrite IH, run_op_count.
Qed.

(** C4, as stated, fails: a manager built on a store that already holds
    the id 0 hands out 0 at its first registration. *)
Lemma prebuilt_store_id_reused :
  ¬ (∀ (h : gmap loc Entity) (ents0 : option (pydict Z loc))
       (earlier later : list op) (ent : loc),
       let w0 := (EntityManager___init__ h [] ents0 None None None).1 in
       ∃ n, assigned [Register ent] (run (earlier ++ later) w0) = [VInt n]
            ∧ n ∉ PyDict.keys (ents (run earlier w0))).
Proof.
  intros H.
  destruct (H (heap_of [(0%nat, [("id", VInt 0)]); (1%nat, [])])
              (Some [(0, 0%nat)]) [] [] 1%nat) as (n & Hn & Hfresh).
  vm_compute in Hn. injection Hn as <-.
  apply Hfresh. vm_compute. apply list_elem_of_here.
Qed.

(** C4: whatever store the manager is constructed on, the ids handed
    out are 0, 1, 2, ... in the order of the registrations, through
    every interleaving of registrations and deletions.  For a manager
    constructed without a store, or with an empty one, the id handed out
    by a registration is not in the store at that moment nor was it at
    any earlier moment.  For a manager constructed on a store that holds
    the id 0, the first registration hands out 0 again: the new entity
    takes the place of the one stored under 0, and the store has the
    keys it had. *)
Theorem ids_sequential_never_reused (h : gmap loc Entity) (out : list string)
    (ents0 : option (pydict Z loc)) (systems0 : option (list System))
    (draws0 : option (list DrawSystem)) (filters0 : option (pydict string Filter)) :
  let w0 := (EntityManager___init__ h out ents0 systems0 draws0 filters0).1 in
  (∀ ops, assigned ops w0 = map VInt (seqZ 0 (Z.of_nat (registrations ops))))
  ∧ (or_empty ents0 = [] →
     ∀ (earlier later : list op) (ent : loc),
       ∃ n, assigned [Register ent] (run (earlier ++ later) w0) = [VInt n]
            ∧ n ∉ PyDict.keys (ents (run earlier w0)))
  ∧ (0 ∈ PyDict.keys (or_empty ents0) →
     ∀ ent : loc,
       assigned [Register ent] w0 = [VInt 0]
       ∧ PyDict.get (ents (run [Register ent] w0)) 0 = Some ent
       ∧ PyDict.keys (ents (run [Register ent] w0)) = PyDict.keys (ents w0)).
Proof.
  intros w0.
  assert (Hcount : ent_count w0 = 0) by reflexivity.
  split_and!.
  - intros ops. by rewrite assigned_sequential, Hcount.
  - intros Hempty earlier later ent.
    assert (Hinv : below_counter w0).
    { intros k. unfold w0; simpl. rewrite Hempty. intros Hk. by apply elem_of_nil in Hk. }
    exists (ent_count (run (earlier ++ later) w0)). split.
    + cbn [assigned]. by rewrite assigned_register.
    + intros Hin. apply (run_below_counter earlier w0 Hinv) in Hin.
      rewrite run_app in Hin.
      pose proof (run_count_mono later (run earlier w0)). lia.
  - intros Hheld ent. split_and!.
    + cbn [assigned]. by rewrite assigned_register, Hcount.
    + unfold run. cbn [foldl run_op]. rewrite add_ent_registered.
      cbn [world_of registered ents]. rewrite Hcount. apply get_setitem_eq.
    + unfold run. cbn [foldl run_op]. rewrite add_ent_registered.
      cbn [world_of registered ents]. rewrite Hcount.
      by apply setitem_keys_present.
Qed.

Lemma ids_sequential_never_reused_witness :
  (let w0 := (EntityManager___init__ (heap_of [(0%nat, []); (1%nat, []); (2%nat, [])])
                [] None None None None).1 in
   assigned [Register 0%nat; Register 1%nat; Delete (VInt 1); Register 2%nat] w0
   = [VInt 0; VInt 1; VInt 2]
   ∧ ∃ n, assigned [Register 2%nat]
            (run ([Register 0%nat; Register 1%nat] ++ [Delete (VInt 1)]) w0) = [VInt n]
          ∧ n ∉ PyDict.keys (ents (run [Register 0%nat; Register 1%nat] w0)))
  ∧ (let w0 := (EntityManager___init__
                  (heap_of [(0%nat, [("id", VInt 0)]); (1%nat, [])])
                  [] (Some [(0, 0%nat)]) None None None).1 in
     assigned [Register 1%nat] w0 = [VInt 0]
     ∧ PyDict.get (ents (run [Register 1%nat] w0)) 0 = Some 1%nat
     ∧ PyDict.keys (ents (run [Register 1%nat] w0)) = PyDict.keys (ents w0)).
Proof.
  split.
  - intros w0.
    pose proof (ids_sequential_never_reused
                  (heap_of [(0%nat, []); (1%nat, []); (2%nat, [])])
                  [] None None None None) as (Hseq & Hfresh & _).
    split.
    + exact (Hseq [Register 0%nat; Register 1%nat; Delete (VInt 1); Register 2%nat]).
    + exact (Hfresh eq_refl [Register 0%nat; Register 1%nat] [Delete (VInt 1)] 2%nat).
  - intros w0.
    pose proof (ids_sequential_never_reused
                  (heap_of [(0%nat, [("id", VInt 0)]); (1%nat, [])])
                  [] (Some [(0, 0%nat)]) None None None) as (_ & _ & Hheld).
    apply Hheld. apply list_elem_of_here.
Defined.

(** ** The fingerprint of a tick (C1) *)

Lemma frozen_state_same_entities (w1 w2 : World) :
  entities_wf w1 → entities_wf w2 → same_entities w1 w2 →
  frozen_state w1 = frozen_state w2.
Proof.
  unfold entities_wf, same_entities, frozen_state.
  generalize (PyDict.values (ents w1)) (PyDict.values (ents w2)).
  intros l1 l2 Hwf1 Hwf2 Hsame. induction Hsame as [|e1 e2 l1 l2 He Hsame IH]; simpl.
  - done.
  - f_equal.
    + apply sorted_items_canonical; [apply Hwf1 | apply Hwf2 | done];
        apply list_elem_of_here.
    + apply IH; intros ent Hent; [apply Hwf1 | apply Hwf2];
        by apply list_elem_of_further.
Qed.

Lemma for_each_step_pure (l : list System) (w : World) :
  (∀ system, system ∈ l → step system w = Ok tt w) →
  for_each l step w = Ok tt w.
Proof.
  induction l as [|system l IH]; intros Hpure; simpl; [done|].
  unfold bind. rewrite Hpure by apply list_elem_of_here.
  apply IH. intros system' Hin. apply Hpure. by apply list_elem_of_further.
Qed.

Lemma do_step_returns_state_hash self w fp w' :
  EntityManager_do_step self w = Ok fp w' → fp = state_hash w'.
Proof.
  unfold EntityManager_do_step, bind.
  destruct (for_each (systems self) step w) as [[] w1|e w1]; [|done].
  unfold get_world, ret. by intros [= <- <-].
Qed.

(** *** The digest is short *)

Lemma word_is_bounded (x : Z) : word_bounded (MD5.word x).
Proof. unfold word_bounded, MD5.word. apply Z.mod_pos_bound. lia. Qed.

Lemma block_bounded (st : MD5.state) (bytes : list Z) :
  state_bounded (MD5.block st bytes).
Proof.
  unfold MD5.block. destruct st as [[[a b] c] d].
  destruct (foldl _ _ _) as [[[a' b'] c'] d'].
  unfold state_bounded. split_and!; apply word_is_bounded.
Qed.

Lemma digest_words_bounded (msg : list Z) : state_bounded (MD5.digest_words msg).
Proof.
  unfold MD5.digest_words. generalize (MD5.groups (length (MD5.pad msg)) 64 (MD5.pad msg)).
  intros chunks. induction chunks as [|chunk chunks IH] using rev_ind.
  - unfold state_bounded, word_bounded; simpl. lia.
  - rewrite foldl_app. simpl. apply block_bounded.
Qed.

Lemma hexdigest_digest_words (m1 m2 : list Z) :
  MD5.digest_words m1 = MD5.digest_words m2 → MD5.hexdigest m1 = MD5.hexdigest m2.
Proof. unfold MD5.hexdigest, MD5.digest. by intros ->. Qed.

Lemma bits32_inj (x y : Z) :
  word_bounded x → word_bounded y → bits32 x = bits32 y → x = y.
Proof.
  unfold word_bounded. intros Hx Hy Hbits. apply Z.bits_inj'. intros n Hn.
  destruct (decide (n < 32)) as [Hlt|Hge].
  - assert (Hnat : (Z.to_nat n < 32)%nat) by lia.
    apply (f_equal (λ v, v !!! nat_to_fin Hnat)) in Hbits.
    unfold bits32 in Hbits. rewrite !lookup_fun_to_vec, fin_to_nat_to_fin in Hbits.
    by rewrite Z2Nat.id in Hbits.
  - rewrite <- (Z.mod_small x (2 ^ 32)), <- (Z.mod_small y (2 ^ 32)) by done.
    rewrite !Z.mod_pow2_bits_high by lia. done.
Qed.

Lemma state_bits_inj (st1 st2 : MD5.state) :
  state_bounded st1 → state_bounded st2 → state_bits st1 = state_bits st2 → st1 = st2.
Proof.
  destruct st1 as [[[a1 b1] c1] d1], st2 as [[[a2 b2] c2] d2].
  unfold state_bits, state_bounded.
  intros (?&?&?&?) (?&?&?&?) Hbits.
  apply pair_equal_spec in Hbits as [Hbits Hd].
  apply pair_equal_spec in Hbits as [Hbits Hc].
  apply pair_equal_spec in Hbits as [Ha Hb].
  by rewrite (bits32_inj a1 a2), (bits32_inj b1 b2), (bits32_inj c1 c2),
             (bits32_inj d1 d2).
Qed.

(** *** More states than digests *)

Lemma bits_string_inj (bs1 bs2 : list bool) :
  bits_string bs1 = bits_string bs2 → bs1 = bs2.
Proof.
  revert bs2. induction bs1 as [|b1 bs1 IH]; intros [|b2 bs2]; simpl; try done.
  intros [= Hb Hs]. f_equal; [|by apply IH]. by destruct b1, b2.
Qed.

Lemma frozen_state_bits_world (bs : vec bool 129) :
  frozen_state (bits_world bs) = [[("k", VStr (bits_string (vec_to_list bs)))]].
Proof.
  unfold frozen_state, bits_world, deref; simpl. by rewrite lookup_singleton_eq.
Qed.

(** *** The text of a state determines the state

    [str] of the frozen state and its encoding lose nothing: every
    level of the text is a prefix code, read back from left to right. *)

Section StateText.
#[local] Arguments String.append !s1 s2 / : simpl nomatch.

Lemma string_app_assoc (a b c : string) : (a +:+ b) +:+ c = a +:+ (b +:+ c).
Proof. induction a as [|x a IH]; simpl; [done|]. f_equal. exact IH. Qed.

Lemma string_app_empty (a : string) : a +:+ "" = a.
Proof. induction a as [|x a IH]; simpl; [done|]. f_equal. exact IH. Qed.

Lemma string_app_inv_head (a r r' : string) : a +:+ r = a +:+ r' → r = r'.
Proof. induction a as [|x a IH]; simpl; [done|]. intros [= H]. by apply IH. Qed.

Lemma code_bounded (c : ascii) : 0 ≤ Repr.code c < 256.
Proof.
  unfold Repr.code. pose proof (N_ascii_bounded c). lia.
Qed.

Lemma code_inj (c c' : ascii) : Repr.code c = Repr.code c' → c = c'.
Proof.
  unfold Repr.code. intros H. apply N2Z.inj in H.
  rewrite <- (ascii_N_embedding c), <- (ascii_N_embedding c'). by rewrite H.
Qed.

Lemma utf8_inj (s s' : string) : Repr.utf8 s = Repr.utf8 s' → s = s'.
Proof.
  revert s'. induction s as [|c s IH]; intros [|c' s']; simpl.
  - done.
  - destruct (_ <? 128); discriminate.
  - destruct (_ <? 128); discriminate.
  - pose proof (code_bounded c) as Hc. pose proof (code_bounded c') as Hc'.
    fold (Repr.code c). fold (Repr.code c').
    destruct (Z.ltb_spec (Repr.code c) 128) as [Hn|Hn];
      destruct (Z.ltb_spec (Repr.code c') 128) as [Hn'|Hn']; simpl.
    + intros [= Hcode Hrest]. f_equal; [by apply code_inj | by apply IH].
    + intros [= Hcode _]. exfalso.
      pose proof (Z.div_pos (Repr.code c') 64). lia.
    + intros [= Hcode _]. exfalso.
      pose proof (Z.div_pos (Repr.code c) 64). lia.
    + intros [= Hdiv Hmod Hrest]. f_equal; [|by apply IH].
      apply code_inj.
      rewrite (Z.div_mod (Repr.code c) 64), (Z.div_mod (Repr.code c') 64) by lia.
      lia.
Qed.

Lemma unescape_escape_char (quote c : ascii) (r : string) :
  quote = "'"%char ∨ quote = Repr.dquote →
  unescape_char quote (Repr.escape_char quote c +:+ r) = Some (c, r).
Proof.
  intros [-> | ->];
    destruct c as [[] [] [] [] [] [] [] []]; reflexivity.
Qed.

Lemma unescape_quote (quote : ascii) (r : string) :
  quote ≠ "\"%char → unescape_char quote (String quote r) = None.
Proof.
  intros Hq. unfold unescape_char.
  rewrite bool_decide_eq_false_2 by done.
  by rewrite bool_decide_eq_true_2.
Qed.

Lemma escape_code (quote : ascii) (s s' r r' : string) :
  quote = "'"%char ∨ quote = Repr.dquote →
  Repr.escape quote s +:+ String quote r = Repr.escape quote s' +:+ String quote r' →
  s = s' ∧ r = r'.
Proof.
  intros Hq.
  assert (quote ≠ "\"%char) as Hb by (destruct Hq as [-> | ->]; discriminate).
  revert s'. induction s as [|c s IH]; intros [|c' s']; simpl.
  - by intros [= ->].
  - intros H. apply (f_equal (unescape_char quote)) in H.
    rewrite string_app_assoc, unescape_escape_char, unescape_quote in H by done.
    discriminate H.
  - intros H. apply (f_equal (unescape_char quote)) in H.
    rewrite string_app_assoc, unescape_escape_char, unescape_quote in H by done.
    discriminate H.
  - intros H. apply (f_equal (unescape_char quote)) in H.
    rewrite !string_app_assoc, !unescape_escape_char in H by done.
    injection H as -> H. destruct (IH _ H) as [-> ->]. done.
Qed.

Lemma quote_of_cases (s : string) : quote_of s = "'"%char ∨ quote_of s = Repr.dquote.
Proof. unfold quote_of. destruct (_ && _); auto. Qed.

Lemma repr_str_app (s r : string) :
  Repr.repr_str s +:+ r
  = String (quote_of s) (Repr.escape (quote_of s) s +:+ String (quote_of s) r).
Proof.
  unfold Repr.repr_str. fold (quote_of s). simpl. by rewrite string_app_assoc.
Qed.

Lemma repr_str_code : prefix_code Repr.repr_str.
Proof.
  intros s s' r r'. rewrite !repr_str_app. intros [= Hq H].
  rewrite <- Hq in H. by apply (escape_code _ _ _ _ _ (quote_of_cases s)).
Qed.

Lemma uint_chars (d : Decimal.uint) :
  Forall (λ c, int_char c = true) (String.list_ascii_of_string (NilEmpty.string_of_uint d)).
Proof. induction d; simpl; constructor; done. Qed.

Lemma repr_int_chars (n : Z) :
  ∃ c t, Repr.repr_int n = String c t
    ∧ Forall (λ c, int_char c = true) (String.list_ascii_of_string (Repr.repr_int n)).
Proof.
  unfold Repr.repr_int.
  assert (∀ d, ∃ c t, NilZero.string_of_uint d = String c t
    ∧ Forall (λ c, int_char c = true)
        (String.list_ascii_of_string (NilZero.string_of_uint d))) as Hu.
  { intros d. pose proof (uint_chars d) as H.
    destruct d; simpl in *; eauto 6 using Forall_cons, Forall_nil. }
  destruct (Z.to_int n) as [d|d]; simpl.
  - apply Hu.
  - destruct (Hu d) as (c & t & _ & H). eexists _, _. split; [done|].
    constructor; done.
Qed.

Lemma repr_int_inj (n n' : Z) : Repr.repr_int n = Repr.repr_int n' → n = n'.
Proof.
  unfold Repr.repr_int. intros H.
  assert (∀ z, NilZero.int_of_string (NilZero.string_of_int (Z.to_int z)) = Some (Z.to_int z)) as Hz.
  { intros z. apply NilZero.isi; destruct z as [|p|p]; simpl; try discriminate;
      intros [= Hp]; by apply (DecimalPos.Unsigned.to_uint_nonnil p). }
  apply DecimalZ.to_int_inj.
  apply (f_equal NilZero.int_of_string) in H. rewrite !Hz in H. congruence.
Qed.

(** Two texts without the character [c], each followed by [c], end at
    the same place. *)
Lemma terminated_code (c : ascii) (s s' r r' : string) :
  Forall (λ x, x ≠ c) (String.list_ascii_of_string s) →
  Forall (λ x, x ≠ c) (String.list_ascii_of_string s') →
  s +:+ String c r = s' +:+ String c r' → s = s' ∧ r = r'.
Proof.
  revert s'. induction s as [|x s IH]; intros [|x' s']; simpl; intros Hs Hs'.
  - by intros [= ->].
  - intros [= <- _]. by inversion Hs'.
  - intros [= -> _]. by inversion Hs.
  - intros [= -> H]. inversion Hs; inversion Hs'; subst.
    destruct (IH s') as [-> ->]; done.
Qed.

Lemma repr_int_code (n n' : Z) (r r' : string) :
  Repr.repr_int n +:+ String ")" r = Repr.repr_int n' +:+ String ")" r' →
  n = n' ∧ r = r'.
Proof.
  intros H.
  destruct (repr_int_chars n) as (_ & _ & _ & Hn).
  destruct (repr_int_chars n') as (_ & _ & _ & Hn').
  destruct (terminated_code ")" (Repr.repr_int n) (Repr.repr_int n') r r') as [Heq ->];
    [ | | done | ].
  - eapply Forall_impl; [exact Hn|]. by intros x Hx ->.
  - eapply Forall_impl; [exact Hn'|]. by intros x Hx ->.
  - split; [by apply repr_int_inj | done].
Qed.

(** The text of a value, followed by a closing parenthesis, tells the
    value: the first character tells its type. *)
Lemma repr_value_code (v v' : value) (r r' : string) :
  Repr.repr_value v +:+ String ")" r = Repr.repr_value v' +:+ String ")" r' →
  v = v' ∧ r = r'.
Proof.
  assert (∀ n t, ∃ c u, Repr.repr_int n +:+ t = String c u ∧ int_char c = true)
    as Hint.
  { intros n t. destruct (repr_int_chars n) as (c & u & Heq & Hc).
    rewrite Heq in *. exists c, (u +:+ t). split; [done|]. by inversion Hc. }
  assert (∀ s t, ∃ q u, Repr.repr_str s +:+ t = String q u
    ∧ (q = "'"%char ∨ q = Repr.dquote)) as Hstr.
  { intros s t. rewrite repr_str_app. eauto using quote_of_cases. }
  destruct v as [|[]|n|s], v' as [|[]|n'|s']; cbn [Repr.repr_value]; intros H;
    try (destruct (repr_int_code _ _ _ _ H) as [-> ->]; done);
    try (destruct (repr_str_code _ _ _ _ H) as [-> [= ->]]; done);
    try (apply string_app_inv_head in H; injection H as ->; done).
  all: exfalso.
  all: repeat match goal with
    | H : context [Repr.repr_int ?n +:+ ?t] |- _ =>
        let c := fresh "c" in let u := fresh "u" in
        let Heq := fresh "Heq" in let Hc := fresh "Hc" in
        destruct (Hint n t) as (c & u & Heq & Hc); rewrite Heq in H; clear Heq
    | H : context [Repr.repr_str ?s +:+ ?t] |- _ =>
        let q := fresh "q" in let u := fresh "u" in
        let Heq := fresh "Heq" in let Hq := fresh "Hq" in
        destruct (Hstr s t) as (q & u & Heq & Hq); rewrite Heq in H; clear Heq
    end.
  all: simpl in H; injection H as ? ?; subst.
  all: repeat match goal with Hq : _ ∨ _ |- _ => destruct Hq; subst end.
  all: repeat match goal with Hc : int_char _ = true |- _ => vm_compute in Hc end.
  all: discriminate.
Qed.

Lemma string_app_cons (c : ascii) (a b : string) :
  String c a +:+ b = String c (a +:+ b).
Proof. reflexivity. Qed.

Lemma string_app_nil (b : string) : "" +:+ b = b.
Proof. reflexivity. Qed.

Lemma string_cons_inv (c : ascii) (a b : string) : String c a = String c b → a = b.
Proof. by intros [= ->]. Qed.

Ltac norm_text H :=
  repeat (rewrite ?string_app_assoc, ?string_app_cons, ?string_app_nil in H).

Lemma repr_tuple_paren (parts : list string) :
  ∃ t, Repr.repr_tuple parts = String "(" t.
Proof. destruct parts as [|x [|y l]]; simpl; eauto. Qed.

Lemma repr_item_code : prefix_code Repr.repr_item.
Proof.
  intros [k v] [k' v'] r r'. unfold Repr.repr_item, Repr.repr_tuple.
  cbn [String.concat fst snd]. intros H. norm_text H.
  apply string_cons_inv in H.
  apply repr_str_code in H as [-> H]. do 2 apply string_cons_inv in H.
  apply repr_value_code in H as [-> ->]. done.
Qed.

Lemma concat_longer {A} (g : A → string) (sep : string) (x y : A) (l : list A) :
  String.concat sep (map g (x :: y :: l))
  = g x +:+ sep +:+ String.concat sep (map g (y :: l)).
Proof. reflexivity. Qed.

Lemma concat_single {A} (g : A → string) (sep : string) (x : A) :
  String.concat sep (map g [x]) = g x.
Proof. reflexivity. Qed.

(** The texts of the elements of a non-empty tuple, separated by a comma
    and a space and followed by the closing parenthesis, tell the
    elements. *)
Lemma concat_code {A} (g : A → string) :
  prefix_code g →
  ∀ l l' r r', l ≠ [] → l' ≠ [] →
    String.concat ", " (map g l) +:+ String ")" r
    = String.concat ", " (map g l') +:+ String ")" r' →
    l = l' ∧ r = r'.
Proof.
  intros Hg. induction l as [|x l IH]; [done|].
  intros [|x' l'] r r' _ Hl'; [done|].
  destruct l as [|y l], l' as [|y' l'];
    rewrite ?concat_longer, ?concat_single; intros H; norm_text H.
  - apply Hg in H as [-> [= ->]]. done.
  - apply Hg in H as [-> H]. discriminate H.
  - apply Hg in H as [-> H]. discriminate H.
  - apply Hg in H as [-> H]. do 2 apply string_cons_inv in H.
    destruct (IH (y' :: l') r r') as [-> ->]; done.
Qed.

(** The text of a tuple tells its elements, when the text of an element
    tells the element and starts with an opening parenthesis. *)
Lemma repr_tuple_code {A} (g : A → string) :
  prefix_code g → (∀ a, ∃ t, g a = String "(" t) →
  prefix_code (λ l, Repr.repr_tuple (map g l)).
Proof.
  intros Hg Hparen l l' r r'.
  assert (∀ a t u, String ")" u ≠ g a +:+ t) as Hclose.
  { intros a t u. destruct (Hparen a) as [v ->]. discriminate. }
  destruct l as [|x [|y l]], l' as [|x' [|y' l']]; unfold Repr.repr_tuple;
    rewrite ?concat_longer, ?concat_single; cbn [map]; intros H; norm_text H;
    apply string_cons_inv in H.
  - apply string_cons_inv in H as ->. done.
  - by apply Hclose in H.
  - by apply Hclose in H.
  - symmetry in H. by apply Hclose in H.
  - apply Hg in H as [-> [= ->]]. done.
  - apply Hg in H as [-> H]. discriminate H.
  - symmetry in H. by apply Hclose in H.
  - apply Hg in H as [-> H]. discriminate H.
  - apply Hg in H as [-> H]. do 2 apply string_cons_inv in H.
    destruct (concat_code g Hg (y :: l) (y' :: l') r r') as [[= -> ->] ->];
      [done|done|exact H|done].
Qed.

Lemma str_state_inj (s s' : list (list (string * value))) :
  Repr.str_state s = Repr.str_state s' → s = s'.
Proof.
  intros H.
  pose proof (repr_tuple_code Repr.repr_item repr_item_code
                (λ kv, repr_tuple_paren _)) as Hent.
  pose proof (repr_tuple_code _ Hent (λ items, repr_tuple_paren _)) as Hstate.
  destruct (Hstate s s' "" "") as [-> _]; [|done].
  rewrite !string_app_empty. exact H.
Qed.

(** Different canonical states give different digest inputs. *)
Lemma digest_input_inj (w w' : World) :
  digest_input w = digest_input w' → frozen_state w = frozen_state w'.
Proof. intros H. by apply str_state_inj, utf8_inj. Qed.

End StateText.

(** *** The fingerprints of two ticks *)

Lemma frozen_state_same_entities_inv (w1 w2 : World) :
  frozen_state w1 = frozen_state w2 → same_entities w1 w2.
Proof.
  unfold same_entities, frozen_state.
  generalize (PyDict.values (ents w1)) (PyDict.values (ents w2)).
  intros l1. induction l1 as [|e1 l1 IH]; intros [|e2 l2]; simpl;
    try discriminate.
  - constructor.
  - intros [= He Hl]. constructor; [|by apply IH].
    by rewrite <- (sorted_items_perm (deref w1 e1)), He, sorted_items_perm.
Qed.

Lemma state_hash_digest_input (w : World) : state_hash w = MD5.hexdigest (digest_input w).
Proof. reflexivity. Qed.

(** Equal fingerprints come from equal canonical states or from a
    collision of the digest. *)
Lemma state_hash_eq (w1 w2 : World) :
  state_hash w1 = state_hash w2
  ↔ frozen_state w1 = frozen_state w2
    ∨ md5_collision (digest_input w1) (digest_input w2).
Proof.
  rewrite !state_hash_digest_input. split.
  - intros Hfp. destruct (decide (frozen_state w1 = frozen_state w2)) as [Heq|Hne].
    + by left.
    + right. split; [|done]. intros Hin. by apply Hne, digest_input_inj.
  - intros [Heq|[_ Hfp]]; [|done]. unfold digest_input. by rewrite Heq.
Qed.

(** The fingerprint tells states apart: one point of [hp] less gives
    another fingerprint. *)
Example state_hash_distinguishes :
  state_hash (mkWorld (heap_of [(0%nat, [("id", VInt 0); ("hp", VInt 3)])])
                      [(0, 0%nat)] 1 [])
  ≠ state_hash (mkWorld (heap_of [(0%nat, [("id", VInt 0); ("hp", VInt 2)])])
                        [(0, 0%nat)] 1 []).
Proof. vm_compute. discriminate. Qed.

(** Two of the [2^129] worlds with one entity and one component of 129
    binary digits have the same fingerprint. *)
Lemma bits_world_collision :
  ∃ bs1 bs2 : vec bool 129,
    frozen_state (bits_world bs1) ≠ frozen_state (bits_world bs2)
    ∧ state_hash (bits_world bs1) = state_hash (bits_world bs2).
Proof.
  destruct (finite_pigeonhole bits_digest) as (bs1 & bs2 & Hne & Hbits).
  { rewrite !prod_card, !vec_card, bool_card. rewrite <- !Nat.pow_add_r.
    apply Nat.pow_lt_mono_r; lia. }
  exists bs1, bs2. split.
  - rewrite !frozen_state_bits_world. intros [= Heq].
    apply bits_string_inj in Heq. by apply Hne, vec_to_list_inj2.
  - unfold bits_digest in Hbits.
    apply state_bits_inj in Hbits; [|apply digest_words_bounded..].
    by apply hexdigest_digest_words in Hbits.
Qed.

(** C1, as stated, fails in the direction from equal fingerprints to
    equal states: the digest has 128 bits, and the worlds with one
    entity whose one component [k] is a text of 129 binary digits have
    [2^129] canonical states, so that two of them, in different states,
    get the same fingerprint from a tick of a manager without systems. *)
Lemma fingerprint_not_injective :
  (∃ (bs1 bs2 : vec bool 129) (fp : string),
     frozen_state (bits_world bs1) ≠ frozen_state (bits_world bs2)
     ∧ EntityManager_do_step (mkEntityManager [] [] []) (bits_world bs1)
       = Ok fp (bits_world bs1)
     ∧ EntityManager_do_step (mkEntityManager [] [] []) (bits_world bs2)
       = Ok fp (bits_world bs2))
  ∧ ¬ (∀ (self : EntityManager) (w1 w2 w1' w2' : World) (fp1 fp2 : string),
         EntityManager_do_step self w1 = Ok fp1 w1' →
         EntityManager_do_step self w2 = Ok fp2 w2' →
         (fp1 = fp2 ↔ frozen_state w1' = frozen_state w2')).
Proof.
  destruct bits_world_collision as (bs1 & bs2 & Hne & Hfp).
  assert (Hrun : ∀ bs, EntityManager_do_step (mkEntityManager [] [] []) (bits_world bs)
                       = Ok (state_hash (bits_world bs)) (bits_world bs))
    by reflexivity.
  split.
  - exists bs1, bs2, (state_hash (bits_world bs1)). split_and!; [done|apply Hrun|].
    rewrite Hfp. apply Hrun.
  - intros Hclaim. apply Hne.
    by apply (Hclaim _ _ _ _ _ _ _ (Hrun bs1) (Hrun bs2)).
Qed.

(** C1 (amended): the fingerprints of two ticks are equal exactly when
    the entity states of the two ticks are equal up to canonicalization
    (the same entities in the order of the store, each with the same
    items, in whatever order they were inserted) or the texts of the two
    canonical states are a collision of the digest; the text of a
    canonical state determines the state; the canonical form of each
    entity is its items sorted by key; and when no system changes
    anything, two consecutive ticks return the same fingerprint. *)
Theorem do_step_fingerprint_canonical :
  (∀ (self : EntityManager) (w1 w2 w1' w2' : World) (fp1 fp2 : string),
     EntityManager_do_step self w1 = Ok fp1 w1' →
     EntityManager_do_step self w2 = Ok fp2 w2' →
     (frozen_state w1' = frozen_state w2' → fp1 = fp2)
     ∧ (entities_wf w1' → entities_wf w2' → same_entities w1' w2' → fp1 = fp2)
     ∧ (fp1 = fp2
        ↔ frozen_state w1' = frozen_state w2'
          ∨ md5_collision (digest_input w1') (digest_input w2'))
     ∧ (entities_wf w1' → entities_wf w2' →
        (fp1 = fp2
         ↔ same_entities w1' w2'
           ∨ md5_collision (digest_input w1') (digest_input w2'))))
  ∧ (∀ w w' : World,
       digest_input w = digest_input w' ↔ frozen_state w = frozen_state w')
  ∧ (∀ (e : Entity), PyDict.wf e →
       StronglySorted key_lt (sorted_items e) ∧ sorted_items e ≡ₚ PyDict.items e)
  ∧ (∀ (self : EntityManager) (w : World),
       (∀ system, system ∈ systems self → step system w = Ok tt w) →
       (fp1 <- EntityManager_do_step self ;;
        fp2 <- EntityManager_do_step self ;;
        ret (fp1, fp2)) w = Ok (state_hash w, state_hash w) w).
Proof.
  split_and!.
  - intros self w1 w2 w1' w2' fp1 fp2 Hrun1 Hrun2.
    apply do_step_returns_state_hash in Hrun1, Hrun2. subst fp1 fp2.
    assert (Hfrozen : frozen_state w1' = frozen_state w2' →
                      state_hash w1' = state_hash w2').
    { unfold state_hash. by intros ->. }
    split_and!.
    + exact Hfrozen.
    + intros Hwf1 Hwf2 Hsame. by apply Hfrozen, frozen_state_same_entities.
    + apply state_hash_eq.
    + intros Hwf1 Hwf2. rewrite state_hash_eq.
      apply or_iff_compat_r. split.
      * apply frozen_state_same_entities_inv.
      * by apply frozen_state_same_entities.
  - intros w w'. split; [apply digest_input_inj|].
    unfold digest_input. by intros ->.
  - intros e Hwf. split; [by apply sorted_items_sorted | apply sorted_items_perm].
  - intros self w Hpure.
    assert (Hrun : EntityManager_do_step self w = Ok (state_hash w) w).
    { unfold EntityManager_do_step, bind. by rewrite for_each_step_pure. }
    unfold bind. by rewrite !Hrun.
Qed.

(** Two stores whose one entity got its components in different orders,
    a third store whose entity has another [hp], and a manager whose only
    system is the base [System]. *)
Lemma do_step_fingerprint_canonical_witness :
  let self := mkEntityManager [] [System_base] [] in
  let w1 := mkWorld (heap_of [(0%nat, [("id", VInt 0); ("hp", VInt 3)])])
                    [(0, 0%nat)] 1 [] in
  let w2 := mkWorld (heap_of [(4%nat, [("hp", VInt 3); ("id", VInt 0)])])
                    [(0, 4%nat)] 1 [] in
  let w3 := mkWorld (heap_of [(0%nat, [("id", VInt 0); ("hp", VInt 2)])])
                    [(0, 0%nat)] 1 [] in
  state_hash w1 = state_hash w2
  ∧ (state_hash w1 = state_hash w3
     ↔ same_entities w1 w3 ∨ md5_collision (digest_input w1) (digest_input w3))
  ∧ StronglySorted key_lt (sorted_items [("id", VInt 0); ("hp", VInt 3)])
  ∧ (fp1 <- EntityManager_do_step self ;;
     fp2 <- EntityManager_do_step self ;;
     ret (fp1, fp2)) w1 = Ok (state_hash w1, state_hash w1) w1.
Proof.
  intros self w1 w2 w3. split_and!.
  - refine (proj1 (proj2 (proj1 do_step_fingerprint_canonical
                     self w1 w2 w1 w2 _ _ eq_refl eq_refl)) _ _ _).
    + intros ent Hent. apply list_elem_of_singleton in Hent as ->. compute_done.
    + intros ent Hent. apply list_elem_of_singleton in Hent as ->. compute_done.
    + repeat constructor.
  - refine (proj2 (proj2 (proj2 (proj1 do_step_fingerprint_canonical
                     self w1 w3 w1 w3 _ _ eq_refl eq_refl))) _ _).
    + intros ent Hent. apply list_elem_of_singleton in Hent as ->. compute_done.
    + intros ent Hent. apply list_elem_of_singleton in Hent as ->. compute_done.
  - refine (proj1 (proj1 (proj2 (proj2 do_step_fingerprint_canonical)) _ _)).
    compute_done.
  - refine (proj2 (proj2 (proj2 do_step_fingerprint_canonical)) self w1 _).
    intros system Hin. apply list_elem_of_singleton in Hin as ->. reflexivity.
Defined.


(** * Further properties *)

(** ** Loops *)

Lemma for_each_app {A} (l1 l2 : list A) (body : A → M unit) (w : World) :
  for_each (l1 ++ l2) body w = (for_each l1 body ;;; for_each l2 body) w.
Proof.
  revert w. induction l1 as [|x l1 IH]; intros w; simpl; [done|].
  unfold bind. destruct (body x w) as [[] w1|e w1]; [|done].
  rewrite IH. reflexivity.
Qed.

(** A loop whose body raises at some element stops there. *)
Lemma for_each_raise {A} (pre post : list A) (x : A) (body : A → M unit)
    (w w1 w2 : World) (e : exn) :
  for_each pre body w = Ok tt w1 → body x w1 = Raise e w2 →
  for_each (pre ++ x :: post) body w = Raise e w2.
Proof.
  intros Hpre Hx. rewrite for_each_app. unfold bind at 1. rewrite Hpre.
  simpl. unfold bind. by rewrite Hx.
Qed.

Lemma for_each_pure {A} (l : list A) (body : A → M unit) (w : World) :
  (∀ x, x ∈ l → body x w = Ok tt w) → for_each l body w = Ok tt w.
Proof.
  induction l as [|x l IH]; intros Hpure; simpl; [done|].
  unfold bind. rewrite Hpure by apply list_elem_of_here.
  apply IH. intros y Hy. apply Hpure. by apply list_elem_of_further.
Qed.

(** ** The shape of the fingerprint *)

Lemma hex_digit_is_hex (n : Z) : 0 ≤ n < 16 → is_hex (Repr.hex_digit n) = true.
Proof.
  intros Hn. unfold Repr.hex_digit.
  assert (Hm : (Z.to_nat n < 16)%nat) by lia.
  generalize dependent (Z.to_nat n). intros m Hm.
  do 16 (destruct m as [|m]; [reflexivity|]). lia.
Qed.

Lemma hex_byte_text (b : Z) :
  0 ≤ b < 256 → String.length (Repr.hex_byte b) = 2%nat ∧ hex_text (Repr.hex_byte b).
Proof.
  intros Hb. split; [reflexivity|]. unfold hex_text, Repr.hex_byte. simpl.
  repeat constructor; apply hex_digit_is_hex.
  - split; [apply Z.div_pos; lia | apply Z.div_lt_upper_bound; lia].
  - apply Z.mod_pos_bound. lia.
Qed.

Lemma list_ascii_app (s1 s2 : string) :
  String.list_ascii_of_string (s1 +:+ s2)
  = String.list_ascii_of_string s1 ++ String.list_ascii_of_string s2.
Proof. induction s1 as [|c s1 IH]; simpl; [done|]. by rewrite IH. Qed.

Lemma string_length_app (s1 s2 : string) :
  String.length (s1 +:+ s2) = (String.length s1 + String.length s2)%nat.
Proof. induction s1 as [|c s1 IH]; simpl; [done|]. by rewrite IH. Qed.

Lemma concat_hex_bytes (bytes : list Z) :
  Forall (λ b, 0 ≤ b < 256) bytes →
  String.length (String.concat "" (map Repr.hex_byte bytes)) = (2 * length bytes)%nat
  ∧ hex_text (String.concat "" (map Repr.hex_byte bytes)).
Proof.
  induction 1 as [|b bytes Hb Hbytes IH]; [by split; [|constructor]|].
  destruct IH as [IHlen IHhex]. destruct (hex_byte_text b Hb) as [Hlen Hhex].
  destruct bytes as [|b' bytes].
  - simpl. split; [done|]. exact Hhex.
  - change (String.concat "" (map Repr.hex_byte (b :: b' :: bytes)))
      with (Repr.hex_byte b +:+ "" +:+ String.concat "" (map Repr.hex_byte (b' :: bytes))).
    split.
    + rewrite !string_length_app, Hlen, IHlen. simpl. lia.
    + unfold hex_text in *. rewrite !list_ascii_app.
      apply Forall_app. split; [done|]. apply Forall_app. split; [constructor|done].
Qed.

Lemma le_bytes_bounded (n : nat) (x : Z) :
  Forall (λ b, 0 ≤ b < 256) (MD5.le_bytes n x) ∧ length (MD5.le_bytes n x) = n.
Proof.
  unfold MD5.le_bytes. split.
  - apply Forall_forall. intros b Hb. apply list_elem_of_fmap in Hb as (i & -> & _).
    apply Z.mod_pos_bound. lia.
  - by rewrite length_map, length_seq.
Qed.

Lemma hexdigest_text (msg : list Z) :
  String.length (MD5.hexdigest msg) = 32%nat ∧ hex_text (MD5.hexdigest msg).
Proof.
  unfold MD5.hexdigest, MD5.digest.
  destruct (MD5.digest_words msg) as [[[a b] c] d].
  destruct (le_bytes_bounded 4 a) as [Ha Hla], (le_bytes_bounded 4 b) as [Hb Hlb],
           (le_bytes_bounded 4 c) as [Hc Hlc], (le_bytes_bounded 4 d) as [Hd Hld].
  destruct (concat_hex_bytes
              (MD5.le_bytes 4 a ++ MD5.le_bytes 4 b ++ MD5.le_bytes 4 c ++ MD5.le_bytes 4 d))
    as [Hlen Hhex].
  { repeat (apply Forall_app; split); done. }
  split; [|exact Hhex].
  rewrite Hlen, !length_app, Hla, Hlb, Hlc, Hld. reflexivity.
Qed.

(** X1: whatever the systems and the entities, the fingerprint that
    [do_step] returns is a text of exactly 32 lower-case hexadecimal
    digits, and it is the hash of the world that the systems left. *)
Theorem do_step_fingerprint_format (self : EntityManager) (w w' : World) (fp : string) :
  EntityManager_do_step self w = Ok fp w' →
  String.length fp = 32%nat
  ∧ Forall (λ c, is_hex c = true) (String.list_ascii_of_string fp)
  ∧ fp = state_hash w'
  ∧ for_each (systems self) step w = Ok tt w'.
Proof.
  intros Hrun. pose proof (do_step_returns_state_hash _ _ _ _ Hrun) as ->.
  destruct (hexdigest_text (Repr.utf8 (Repr.str_state (frozen_state w')))) as [Hlen Hhex].
  split_and!; [exact Hlen | exact Hhex | done |].
  unfold EntityManager_do_step, bind in Hrun.
  destruct (for_each (systems self) step w) as [[] w1|e w1]; [|done].
  unfold get_world, ret in Hrun. by injection Hrun as _ ->.
Qed.

Lemma do_step_fingerprint_format_witness :
  let w := mkWorld (heap_of [(0%nat, [("id", VInt 0)])]) [(0, 0%nat)] 1 [] in
  String.length (state_hash w) = 32%nat.
Proof.
  intros w.
  exact (proj1 (do_step_fingerprint_format
                  (mkEntityManager [] [System_base] []) w w (state_hash w) eq_refl)).
Defined.

(** ** The order of a tick *)

(** X2: [do_step] runs the systems in the order of the list, each on
    the world the one before left: once a first part of the list has
    run, the tick goes on as a tick of the rest; in particular a system
    added without an index runs last, after all the others. *)
Theorem do_step_in_order :
  (∀ (self : EntityManager) (first rest : list System) (w w1 : World),
     systems self = first ++ rest →
     for_each first step w = Ok tt w1 →
     EntityManager_do_step self w
     = EntityManager_do_step (mkEntityManager (filters self) rest (draw_systems self)) w1)
  ∧ (∀ (self : EntityManager) (s : System) (w w1 : World),
       for_each (systems self) step w = Ok tt w1 →
       EntityManager_do_step (EntityManager_add_system self s None) w
       = (step s ;;; w2 <- get_world ;; ret (state_hash w2)) w1).
Proof.
  split.
  - intros self first rest w w1 Hsys Hfirst.
    unfold EntityManager_do_step. rewrite Hsys. cbn [systems].
    unfold bind at 1 3. rewrite for_each_app. unfold bind at 1. by rewrite Hfirst.
  - intros self s w w1 Hrun.
    unfold EntityManager_do_step, EntityManager_add_system. cbn [systems].
    unfold bind at 1. rewrite for_each_app. unfold bind at 1. rewrite Hrun.
    simpl. unfold bind. by destruct (step s w1) as [[] ?|? ?].
Qed.

Lemma do_step_in_order_witness :
  let self := mkEntityManager [] [System_base] [] in
  EntityManager_do_step (EntityManager_add_system self DeletionSystem None) flagged_world
  = (step DeletionSystem ;;; w2 <- get_world ;; ret (state_hash w2)) flagged_world.
Proof.
  intros self.
  exact (proj2 do_step_in_order self DeletionSystem flagged_world flagged_world eq_refl).
Defined.

(** X3: when a system raises, [do_step] raises the same exception in
    the world that system left; the systems after it do not run and no
    fingerprint is returned. *)
Theorem do_step_propagates (self : EntityManager) (first rest : list System)
    (s : System) (w w1 w2 : World) (e : exn) :
  systems self = first ++ s :: rest →
  for_each first step w = Ok tt w1 →
  step s w1 = Raise e w2 →
  EntityManager_do_step self w = Raise e w2.
Proof.
  intros Hsys Hfirst Hs. unfold EntityManager_do_step. rewrite Hsys.
  unfold bind. by rewrite (for_each_raise first rest s step w w1 w2 e).
Qed.

Lemma do_step_propagates_witness :
  EntityManager_do_step (mkEntityManager [] [System_base; DeletionSystem; System_base] [])
                        aliased_world
  = Raise KeyError (set_ents [(0, 5%nat)] aliased_world).
Proof.
  exact (do_step_propagates
           (mkEntityManager [] [System_base; DeletionSystem; System_base] [])
           [System_base] [System_base] DeletionSystem
           aliased_world aliased_world (set_ents [(0, 5%nat)] aliased_world) KeyError
           eq_refl eq_refl eq_refl).
Defined.

(** ** The loop over the group *)

(** X4: when the per-entity step raises on an entity of the group, the
    step of the system raises the same exception: the entities before it
    have been processed, those after it are not visited. *)
Theorem System_step_stops_at_raise (name : string) (crit : list string)
    (individual : loc → M unit) (visited rest : list loc) (ent : loc)
    (w w1 w2 : World) (e : exn) :
  matching crit w = visited ++ ent :: rest →
  for_each visited individual w = Ok tt w1 →
  individual ent w1 = Raise e w2 →
  step (System_per_entity name crit individual) w = Raise e w2.
Proof.
  intros Hgroup Hvisited Hent.
  change (step (System_per_entity name crit individual) w)
    with (for_each (matching crit w) individual w).
  rewrite Hgroup. by apply (for_each_raise visited rest ent individual w w1 w2 e).
Qed.

Lemma System_step_stops_at_raise_witness :
  step (System_per_entity "DropHp" ["id"] drop_hp) hp_world
  = Raise KeyError
      (set_heap (heap_of [(5%nat, [("id", VInt 0)]);
                          (6%nat, [("id", VInt 1)]);
                          (7%nat, [("hp", VInt 9); ("id", VInt 2)])]) hp_world).
Proof.
  exact (System_step_stops_at_raise "DropHp" ["id"] drop_hp [5%nat] [7%nat] 6%nat
           hp_world _ _ KeyError eq_refl eq_refl eq_refl).
Defined.

(** ** Defaults that change nothing *)

Lemma for_each_pass {A} (l : list A) (w : World) :
  for_each l (λ _, ret tt) w = Ok tt w.
Proof. apply for_each_pure. done. Qed.

(** X5: a system that overrides nothing, and a draw system that
    overrides nothing, leave every world as it is, whatever their
    criteria; and [draw] leaves the world as it is when each of its draw
    systems does. *)
Theorem defaults_change_nothing :
  (∀ (name : string) (crit : list string) (w : World),
     step (System_per_entity name crit System_do_step_individual) w = Ok tt w)
  ∧ (∀ (crit : list string) (off : offset) (w : World),
       draw (mkDrawSystem crit (DrawSystem_draw crit (λ _ _, ret tt))) off w = Ok tt w)
  ∧ (∀ (self : EntityManager) (off : offset) (w : World),
       (∀ d, d ∈ draw_systems self → draw d off w = Ok tt w) →
       EntityManager_draw self off w = Ok tt w)
  ∧ (∀ (self : EntityManager) (w : World),
       (∀ s, s ∈ systems self → ∃ name crit,
             s = System_per_entity name crit System_do_step_individual) →
       EntityManager_do_step self w = Ok (state_hash w) w).
Proof.
  assert (Hsys : ∀ name crit w,
            step (System_per_entity name crit System_do_step_individual) w = Ok tt w).
  { intros name crit w. apply (for_each_pass (matching crit w)). }
  split_and!.
  - exact Hsys.
  - intros crit off w. apply (for_each_pass (matching crit w)).
  - intros self off w Hpure. unfold EntityManager_draw. by apply for_each_pure.
  - intros self w Hdefault. unfold EntityManager_do_step, bind.
    rewrite for_each_pure; [done|].
    intros s Hs. destruct (Hdefault s Hs) as (name & crit & ->). apply Hsys.
Qed.

Lemma defaults_change_nothing_witness :
  EntityManager_draw (mkEntityManager [] [] [DrawSystem_base; DrawSystem_base])
                     (3, 4) hp_world
  = Ok tt hp_world
  ∧ EntityManager_do_step (mkEntityManager [] [System_base] []) hp_world
    = Ok (state_hash hp_world) hp_world.
Proof.
  split.
  - refine (proj1 (proj2 (proj2 defaults_change_nothing)) _ (3, 4) hp_world _).
    intros d Hd. apply elem_of_cons in Hd as [->|Hd]; [reflexivity|].
    apply list_elem_of_singleton in Hd as ->. reflexivity.
  - refine (proj2 (proj2 (proj2 defaults_change_nothing)) _ hp_world _).
    intros s Hs. apply list_elem_of_singleton in Hs as ->.
    by exists "System", [].
Defined.

(** ** Registering at an index *)

Lemma inserted_at_take_drop {A} (l : list A) (x : A) (p : nat) :
  (p ≤ length l)%nat → inserted_at l x p (take p l ++ x :: drop p l).
Proof.
  intros Hp. assert (Hlen : length (take p l) = p) by (rewrite length_take; lia).
  unfold inserted_at. split_and!.
  - rewrite <- Hlen at 1. apply list_lookup_middle. done.
  - intros j Hj. rewrite lookup_app_l by lia. apply lookup_take_lt. done.
  - intros j Hj. rewrite lookup_app_r by lia. rewrite Hlen.
    replace (S j - p)%nat with (S (j - p)) by lia. simpl.
    rewrite lookup_drop. f_equal. lia.
  - rewrite length_app. simpl. rewrite Hlen, length_drop. lia.
Qed.

Lemma list_insert_by_index {A} (l : list A) (x : A) (i : Z) :
  inserted_by_index l x i (list_insert l i x).
Proof.
  unfold inserted_by_index, list_insert. split_and!.
  - intros Hi. rewrite (proj2 (Z.ltb_ge i 0)) by lia.
    rewrite Z.min_l by lia. apply inserted_at_take_drop. lia.
  - intros Hi. rewrite (proj2 (Z.ltb_ge i 0)) by lia.
    rewrite Z.min_r by lia. rewrite Nat2Z.id, firstn_all, drop_all. done.
  - intros Hi. rewrite (proj2 (Z.ltb_lt i 0)) by lia.
    rewrite Z.max_r by lia. rewrite (Z.add_comm i). apply inserted_at_take_drop. lia.
  - intros Hi. rewrite (proj2 (Z.ltb_lt i 0)) by lia.
    rewrite Z.max_l by lia. done.
Qed.

(** X6: with an index other than 0, [add_system] and [add_draw_system]
    put the new system where [list.insert] puts it: at position [i] for
    [0 < i ≤ len], at the end for a larger index, [-i] places before the
    end for a negative index, at the front when that runs past the
    front; the systems already there keep their order, and the other
    registries are not touched. *)
Theorem add_system_at_index (self : EntityManager) (s : System) (d : DrawSystem) (i : Z) :
  i ≠ 0 →
  inserted_by_index (systems self) s i
    (systems (EntityManager_add_system self s (Some i)))
  ∧ draw_systems (EntityManager_add_system self s (Some i)) = draw_systems self
  ∧ filters (EntityManager_add_system self s (Some i)) = filters self
  ∧ inserted_by_index (draw_systems self) d i
      (draw_systems (EntityManager_add_draw_system self d (Some i)))
  ∧ systems (EntityManager_add_draw_system self d (Some i)) = systems self
  ∧ filters (EntityManager_add_draw_system self d (Some i)) = filters self.
Proof.
  intros Hi.
  assert (Hgiven : index_given (Some i) = true).
  { simpl. apply negb_true_iff, Z.eqb_neq, Hi. }
  unfold EntityManager_add_system, EntityManager_add_draw_system. rewrite Hgiven.
  split_and!; try reflexivity; apply list_insert_by_index.
Qed.

Lemma add_system_at_index_witness :
  let self := mkEntityManager [] [System_base; System_base] [DrawSystem_base] in
  systems (EntityManager_add_system self DeletionSystem (Some 1)) !! 1%nat
  = Some DeletionSystem
  ∧ systems (EntityManager_add_system self DeletionSystem (Some (-1))) !! 1%nat
    = Some DeletionSystem
  ∧ systems (EntityManager_add_system self DeletionSystem (Some 7))
    = [System_base; System_base; DeletionSystem].
Proof.
  intros self. split_and!.
  - refine (proj1 (proj1 (proj1 (add_system_at_index self DeletionSystem
                                   DrawSystem_base 1 _)) _)); [done | simpl; lia].
  - refine (proj1 (proj1 (proj2 (proj2 (proj1 (add_system_at_index self DeletionSystem
                                   DrawSystem_base (-1) _)))) _)); [done | simpl; lia].
  - refine (proj1 (proj2 (proj1 (add_system_at_index self DeletionSystem
                                   DrawSystem_base 7 _))) _); [done | simpl; lia].
Defined.

(** ** The registry of filters *)

Lemma setitem_wf {K V} `{EqDecision K} (d : pydict K V) k v :
  PyDict.wf d → PyDict.wf (PyDict.setitem d k v).
Proof.
  unfold PyDict.wf. intros Hwf.
  destruct (decide (k ∈ PyDict.keys d)) as [Hin|Hout].
  - by rewrite setitem_keys_present.
  - rewrite setitem_fresh by done. unfold PyDict.keys. rewrite map_app. simpl.
    apply NoDup_app. split_and!; [done| |apply NoDup_singleton].
    intros k' Hk' Heq. apply list_elem_of_singleton in Heq as ->. by apply Hout.
Qed.

Lemma add_filter_key (self : EntityManager) (f : Filter) (name : option string) :
  filters (EntityManager_add_filter self f name)
  = PyDict.setitem (filters self) (filter_key f name) f.
Proof.
  unfold EntityManager_add_filter, filter_key, name_given. destruct name as [n|]; simpl.
  - by destruct (String.eqb n "").
  - done.
Qed.

(** X7: a filter registered under a non-empty name is the one that
    [filter] runs for that name, on the store and with the criteria of
    the query; queries for the other names, and the lists of systems,
    are as before. *)
Theorem add_filter_then_filter (self : EntityManager) (f : Filter) (name : string)
    (kw : kwargs) (w : World) :
  name ≠ "" →
  let self' := EntityManager_add_filter self f (Some name) in
  EntityManager_filter self' name kw w = apply f kw w
  ∧ (∀ other, other ≠ name →
       EntityManager_filter self' other kw w = EntityManager_filter self other kw w)
  ∧ systems self' = systems self
  ∧ draw_systems self' = draw_systems self.
Proof.
  intros Hname self'.
  assert (Hkey : filter_key f (Some name) = name).
  { simpl. by rewrite (proj2 (String.eqb_neq name "")). }
  split_and!; try reflexivity.
  - unfold EntityManager_filter, self'. rewrite add_filter_key, Hkey.
    by rewrite get_setitem_eq.
  - intros other Hother. unfold EntityManager_filter, self'.
    rewrite add_filter_key, Hkey. by rewrite get_setitem_ne.
Qed.

Lemma add_filter_then_filter_witness :
  EntityManager_filter
    (EntityManager_add_filter (mkEntityManager [] [] []) (Filter_per_entity "HasHp" has_hp)
       (Some "alive")) "alive" [] hp_world
  = Ok [VInt 0; VInt 2] hp_world.
Proof.
  refine (proj1 (add_filter_then_filter (mkEntityManager [] [] [])
                   (Filter_per_entity "HasHp" has_hp) "alive" [] hp_world _)).
  done.
Defined.

(** X8: without a name, and with the empty name, which [if name:] takes
    for no name, the filter is registered under the name of its class;
    nothing is registered under the empty name. *)
Theorem add_filter_default_name (self : EntityManager) (f : Filter)
    (kw : kwargs) (w : World) :
  EntityManager_filter (EntityManager_add_filter self f None) (Filter_name f) kw w
    = apply f kw w
  ∧ EntityManager_add_filter self f (Some "") = EntityManager_add_filter self f None
  ∧ (Filter_name f ≠ "" →
     EntityManager_filter (EntityManager_add_filter self f (Some "")) "" kw w
     = EntityManager_filter self "" kw w).
Proof.
  split_and!.
  - unfold EntityManager_filter. rewrite add_filter_key. simpl.
    by rewrite get_setitem_eq.
  - reflexivity.
  - intros Hname. unfold EntityManager_filter. rewrite add_filter_key. simpl.
    by rewrite get_setitem_ne.
Qed.

(** X9: registering a filter under a name that is taken replaces the
    filter in place: the query runs the new one, the names and their
    order are as before; and names stay distinct under any
    registration. *)
Theorem add_filter_replaces (self : EntityManager) (f g : Filter)
    (name : option string) (kw : kwargs) (w : World) :
  let self1 := EntityManager_add_filter self f name in
  let self2 := EntityManager_add_filter self1 g name in
  filter_key g name = filter_key f name →
  EntityManager_filter self2 (filter_key f name) kw w = apply g kw w
  ∧ PyDict.keys (filters self2) = PyDict.keys (filters self1)
  ∧ (PyDict.wf (filters self) → PyDict.wf (filters self1) ∧ PyDict.wf (filters self2)).
Proof.
  intros self1 self2 Hkey. split_and!.
  - unfold EntityManager_filter, self2. rewrite add_filter_key, Hkey.
    by rewrite get_setitem_eq.
  - unfold self2, self1. rewrite !add_filter_key, Hkey.
    apply setitem_keys_present, keys_setitem. by left.
  - intros Hwf. unfold self2, self1. rewrite !add_filter_key.
    split; repeat apply setitem_wf; done.
Qed.

Lemma add_filter_replaces_witness :
  let self := mkEntityManager [("Filter", Filter_base)] [] [] in
  EntityManager_filter
    (EntityManager_add_filter (EntityManager_add_filter self Filter_base (Some "alive"))
       (Filter_per_entity "HasHp" has_hp) (Some "alive"))
    "alive" [] hp_world
  = Ok [VInt 0; VInt 2] hp_world.
Proof.
  intros self.
  exact (proj1 (add_filter_replaces self Filter_base (Filter_per_entity "HasHp" has_hp)
                  (Some "alive") [] hp_world eq_refl)).
Defined.

(** ** Finding a system by the name of its class *)

Lemma find_first {A} (f : A → bool) (l : list A) (x : A) :
  List.find f l = Some x →
  ∃ pre post, l = pre ++ x :: post ∧ f x = true ∧ ∀ y, y ∈ pre → f y = false.
Proof.
  induction l as [|y l IH]; simpl; [done|].
  destruct (f y) eqn:Hy.
  - intros [= ->]. exists [], l. split_and!; [done|done|].
    intros z Hz. by apply elem_of_nil in Hz.
  - intros Hfind. destruct (IH Hfind) as (pre & post & -> & Hx & Hpre).
    exists (y :: pre), post. split_and!; [done|done|].
    intros z Hz. apply elem_of_cons in Hz as [->|Hz]; [done|by apply Hpre].
Qed.

Lemma find_app {A} (f : A → bool) (l1 l2 : list A) :
  List.find f (l1 ++ l2)
  = match List.find f l1 with Some x => Some x | None => List.find f l2 end.
Proof.
  induction l1 as [|y l1 IH]; simpl; [done|]. by destruct (f y).
Qed.

(** X10: [get_system] returns the first system of the list whose class
    has the given name, and nothing exactly when no system has it. *)
Theorem get_system_first (self : EntityManager) (classname : string) :
  (∀ s, EntityManager_get_system self classname = Some s →
        ∃ before after, systems self = before ++ s :: after
                        ∧ System_name s = classname
                        ∧ ∀ s', s' ∈ before → System_name s' ≠ classname)
  ∧ (EntityManager_get_system self classname = None
     ↔ ∀ s, s ∈ systems self → System_name s ≠ classname).
Proof.
  unfold EntityManager_get_system. split.
  - intros s Hfind. destruct (find_first _ _ _ Hfind) as (pre & post & Hl & Hs & Hpre).
    exists pre, post. split_and!; [done | by apply String.eqb_eq |].
    intros s' Hs'. apply String.eqb_neq. by apply Hpre.
  - split.
    + intros Hnone s Hs. apply String.eqb_neq.
      apply (List.find_none _ _ Hnone). by apply list_elem_of_In.
    + intros Hall. destruct (List.find _ _) as [s|] eqn:Hfind; [|done].
      apply List.find_some in Hfind as [Hin Hname].
      apply String.eqb_eq in Hname. by destruct (Hall s (proj2 (list_elem_of_In _ _) Hin)).
Qed.

Lemma get_system_first_witness :
  let self := mkEntityManager [] [System_base; DeletionSystem; DeletionSystem] [] in
  ∃ before after, systems self = before ++ DeletionSystem :: after
                  ∧ System_name DeletionSystem = "DeletionSystem"
                  ∧ ∀ s', s' ∈ before → System_name s' ≠ "DeletionSystem".
Proof.
  intros self.
  exact (proj1 (get_system_first self "DeletionSystem") DeletionSystem eq_refl).
Defined.

(** X11: after [add_system(s)] without an index, [get_system] for the
    class of [s] returns the system of that class that was registered
    first: [s] itself only when there was none; for the other classes it
    returns what it returned before. *)
Theorem get_system_after_add_system (self : EntityManager) (s : System) :
  EntityManager_get_system (EntityManager_add_system self s None) (System_name s)
    = Some (default s (EntityManager_get_system self (System_name s)))
  ∧ ∀ classname, classname ≠ System_name s →
      EntityManager_get_system (EntityManager_add_system self s None) classname
      = EntityManager_get_system self classname.
Proof.
  unfold EntityManager_get_system, EntityManager_add_system. cbn [systems]. split.
  - rewrite find_app. destruct (List.find _ (systems self)); [done|].
    simpl. by rewrite String.eqb_refl.
  - intros classname Hne. rewrite find_app.
    destruct (List.find _ (systems self)); [done|].
    simpl. by rewrite (proj2 (String.eqb_neq (System_name s) classname)).
Qed.

Lemma add_filter_default_name_witness :
  EntityManager_filter
    (EntityManager_add_filter (mkEntityManager [] [] [])
       (Filter_per_entity "HasHp" has_hp) (Some "")) "" [] hp_world
  = Raise KeyError hp_world.
Proof.
  refine (proj2 (proj2 (add_filter_default_name (mkEntityManager [] [] [])
                          (Filter_per_entity "HasHp" has_hp) [] hp_world)) _).
  done.
Defined.

Lemma get_system_after_add_system_witness :
  EntityManager_get_system
    (EntityManager_add_system (mkEntityManager [] [System_base] []) DeletionSystem None)
    "System"
  = Some System_base.
Proof.
  refine (proj2 (get_system_after_add_system (mkEntityManager [] [System_base] [])
                   DeletionSystem) "System" _).
  done.
Defined.

(** ** Writing and deleting components by attribute *)

(** X12: [ent.name = v] always stores the component, at the end for a
    new key and in place for an old one, and touches no other key; the
    attribute then reads [v], unless [name] is the name of an attribute
    of the class, which still hides the component. *)
Theorem Entity_setattr_getattr (e : Entity) (name : string) (v : value) :
  let e' := Entity___setattr__ e name v in
  PyDict.get e' name = Some v
  ∧ Entity_getattribute e' name
    = (if bool_decide (name ∈ Entity_class_attributes)
       then ClassAttribute name else Component v)
  ∧ (∀ other, other ≠ name → Entity_getattribute e' other = Entity_getattribute e other)
  ∧ (name ∈ PyDict.keys e → PyDict.keys e' = PyDict.keys e)
  ∧ (name ∉ PyDict.keys e → e' = e ++ [(name, v)])
  ∧ (PyDict.wf e → PyDict.wf e').
Proof.
  intros e'. unfold e', Entity___setattr__. split_and!.
  - apply get_setitem_eq.
  - unfold Entity_getattribute, Entity___getattr__. by rewrite get_setitem_eq.
  - intros other Hother. unfold Entity_getattribute, Entity___getattr__.
    by rewrite get_setitem_ne.
  - apply setitem_keys_present.
  - apply setitem_fresh.
  - apply setitem_wf.
Qed.

Lemma Entity_setattr_getattr_witness :
  Entity___setattr__ [("hp", VInt 3)] "items" (VInt 2) = [("hp", VInt 3); ("items", VInt 2)]
  ∧ PyDict.keys (Entity___setattr__ [("hp", VInt 3)] "hp" (VInt 2)) = ["hp"].
Proof.
  split.
  - refine (proj1 (proj2 (proj2 (proj2 (proj2
              (Entity_setattr_getattr [("hp", VInt 3)] "items" (VInt 2)))))) _).
    compute_done.
  - refine (proj1 (proj2 (proj2 (proj2
              (Entity_setattr_getattr [("hp", VInt 3)] "hp" (VInt 2))))) _).
    compute_done.
Defined.

(** X13: [del ent.name] raises [KeyError] when the component is
    missing; otherwise it removes that component and no other, the rest
    keeping their order, so that the key reads as absent afterwards; and
    deleting a component that was just added under a new key gives the
    entity back. *)
Theorem Entity_delattr_removes :
  (∀ (e : Entity) (name : string),
     name ∉ PyDict.keys e ↔ Entity___delattr__ e name = None)
  ∧ (∀ (e e' : Entity) (name : string),
       PyDict.wf e → Entity___delattr__ e name = Some e' →
       PyDict.get e' name = None
       ∧ Entity___getattr__ e' name = VNone
       ∧ (∀ other, other ≠ name → PyDict.get e' other = PyDict.get e other)
       ∧ e' `sublist_of` e
       ∧ length e = S (length e')
       ∧ PyDict.wf e')
  ∧ (∀ (e : Entity) (name : string) (v : value),
       name ∉ PyDict.keys e →
       Entity___delattr__ (Entity___setattr__ e name v) name = Some e)
  ∧ (∀ (ent : loc) (name : string) (w : World),
       name ∉ PyDict.keys (deref w ent) → delattr ent name w = Raise KeyError w).
Proof.
  unfold Entity___delattr__. split_and!.
  - intros e name. symmetry. apply delitem_absent.
  - intros e e' name Hwf Hdel.
    assert (Hget : PyDict.get e' name = None) by by apply (delitem_get_eq e).
    split_and!.
    + exact Hget.
    + unfold Entity___getattr__. by rewrite Hget.
    + intros other Hother. by apply (delitem_get_ne e e' name).
    + by apply delitem_sublist in Hdel as [? _].
    + by apply delitem_sublist in Hdel as [_ ?].
    + by apply (delitem_wf e e' name).
  - intros e name v Hnew. unfold Entity___setattr__. rewrite setitem_fresh by done.
    rewrite delitem_app by done. by rewrite app_nil_r.
  - intros ent name w Hout. unfold delattr, Entity___delattr__.
    by rewrite (proj2 (delitem_absent _ _) Hout).
Qed.

Lemma Entity_delattr_removes_witness :
  Entity___delattr__ [("hp", VInt 3)] "mana" = None
  ∧ PyDict.get [("id", VInt 0)] "hp" = None
  ∧ Entity___delattr__ (Entity___setattr__ [("id", VInt 0)] "hp" (VInt 3)) "hp"
    = Some [("id", VInt 0)].
Proof.
  split_and!.
  - refine (proj1 (proj1 Entity_delattr_removes [("hp", VInt 3)] "mana") _).
    compute_done.
  - refine (proj1 (proj1 (proj2 Entity_delattr_removes)
                     [("hp", VInt 3); ("id", VInt 0)] [("id", VInt 0)] "hp" _ eq_refl)).
    compute_done.
  - refine (proj1 (proj2 (proj2 Entity_delattr_removes)) [("id", VInt 0)] "hp" (VInt 3) _).
    compute_done.
Defined.

(** ** More on DeletionSystem *)

(** The step on a store whose flagged entities carry their own key. *)
Lemma DeletionSystem_step_ok (w : World) :
  PyDict.wf (ents w) →
  (∀ id ent, (id, ent) ∈ ents w → flagged w (id, ent) = true →
     value_key (Entity___getattr__ (deref w ent) "id") = Some id) →
  step DeletionSystem w
  = Ok tt (set_ents (List.filter (λ kv, negb (flagged w kv)) (ents w)) w).
Proof.
  intros Hwf Hids. rewrite DeletionSystem_step_eq.
  apply (for_each_del_ent (flagged w) (ents w) []); [done|done|].
  rewrite matching_items. unfold PyDict.values. rewrite map_map. fold (flagged w).
  apply Forall2_fmap_l, Forall_Forall2_diag, Forall_forall.
  intros [id ent] Hin. apply list_elem_of_In, filter_In in Hin as [Hin Hfl].
  apply Hids; [by apply list_elem_of_In | done].
Qed.

(** X14: after a step of [DeletionSystem] on a store whose flagged
    entities carry their own key, [ecs[id]] raises [KeyError] for every
    id whose entity had the keys [delete] and [id], whatever the value
    stored under [delete], and returns the same object as before for
    every other id of the store. *)
Theorem DeletionSystem_then_lookup (w : World) :
  PyDict.wf (ents w) →
  (∀ id ent, (id, ent) ∈ ents w → flagged w (id, ent) = true →
     value_key (Entity___getattr__ (deref w ent) "id") = Some id) →
  ∃ w', step DeletionSystem w = Ok tt w'
    ∧ (∀ id ent v, (id, ent) ∈ ents w →
         PyDict.get (deref w ent) "delete" = Some v →
         "id" ∈ PyDict.keys (deref w ent) →
         EntityManager___getitem__ id w' = Raise KeyError w')
    ∧ (∀ id ent, (id, ent) ∈ ents w →
         "delete" ∉ PyDict.keys (deref w ent) →
         EntityManager___getitem__ id w' = Ok ent w'
         ∧ deref w' ent = deref w ent).
Proof.
  intros Hwf Hids. eexists. split; [by apply DeletionSystem_step_ok|].
  unfold EntityManager___getitem__. cbn [ents set_ents]. split.
  - intros id ent v Hin Hdel Hid.
    assert (Hfl : flagged w (id, ent) = true).
    { apply meets_spec. intros comp Hc.
      apply elem_of_cons in Hc as [->|Hc].
      - apply get_Some_elem in Hdel. by apply (list_elem_of_fmap_2 fst) in Hdel.
      - apply list_elem_of_singleton in Hc as ->. done. }
    destruct (PyDict.get (List.filter _ (ents w)) id) as [ent'|] eqn:Hget; [|done].
    apply get_Some_elem, list_elem_of_In, filter_In in Hget as [Hin' Hkeep].
    apply list_elem_of_In in Hin'.
    assert (ent' = ent) as ->.
    { apply (elem_get _ _ _ Hwf) in Hin, Hin'. congruence. }
    by rewrite Hfl in Hkeep.
  - intros id ent Hin Hnodel.
    assert (Hfl : flagged w (id, ent) = false).
    { apply not_true_is_false. intros Hfl. apply Hnodel.
      apply (proj1 (meets_spec _ _) Hfl). apply list_elem_of_here. }
    rewrite (elem_get (List.filter _ (ents w)) id ent); [done| |].
    + by apply filter_wf.
    + apply list_elem_of_In, filter_In. split; [by apply list_elem_of_In|].
      by rewrite Hfl.
Qed.

Lemma DeletionSystem_then_lookup_witness :
  ∃ w', step DeletionSystem flagged_world = Ok tt w'
        ∧ EntityManager___getitem__ 1 w' = Raise KeyError w'
        ∧ EntityManager___getitem__ 2 w' = Ok 20%nat w'.
Proof.
  destruct (DeletionSystem_then_lookup flagged_world) as (w' & Hrun & Hgone & Hkept).
  - compute_done.
  - intros id ent Hin Hfl.
    apply elem_of_cons in Hin as [[= -> ->]|Hin]; [reflexivity|].
    apply elem_of_cons in Hin as [[= -> ->]|Hin]; [discriminate Hfl|].
    apply list_elem_of_singleton in Hin as [= -> ->]. reflexivity.
  - exists w'. split_and!.
    + exact Hrun.
    + apply (Hgone 1 10%nat (VBool true)); [compute_done | reflexivity | compute_done].
    + apply (Hkept 2 20%nat); compute_done.
Defined.




(** X16: on a store in which every entity that has both [delete] and
    [id] is stored under the id it carries, a step of [DeletionSystem]
    ends normally and leaves no such entity in the store, so that a
    second step right after it changes nothing: the two steps together
    give the result of the first. *)
Theorem DeletionSystem_step_twice (w : World) :
  PyDict.wf (ents w) →
  (∀ id ent, (id, ent) ∈ ents w → flagged w (id, ent) = true →
     value_key (Entity___getattr__ (deref w ent) "id") = Some id) →
  (step DeletionSystem ;;; step DeletionSystem) w = step DeletionSystem w
  ∧ ∃ w', step DeletionSystem w = Ok tt w' ∧ matching ["delete"; "id"] w' = [].
Proof.
  intros Hwf Hids.
  set (w' := set_ents (List.filter (λ kv, negb (flagged w kv)) (ents w)) w).
  assert (Hrun : step DeletionSystem w = Ok tt w') by by apply DeletionSystem_step_ok.
  assert (Hnone : matching ["delete"; "id"] w' = []).
  { rewrite matching_items. unfold w'. cbn [ents set_ents].
    change (λ kv : Z * loc, meets ["delete"; "id"] (deref (set_ents _ w) kv.2))
      with (flagged w).
    generalize (ents w). intros d. induction d as [|kv d IH]; [done|].
    simpl. destruct (flagged w kv) eqn:Hfl; simpl; [done|]. by rewrite Hfl. }
  split; [|by exists w'].
  unfold bind. rewrite Hrun. rewrite DeletionSystem_step_eq, Hnone. reflexivity.
Qed.

Lemma DeletionSystem_step_twice_witness :
  (step DeletionSystem ;;; step DeletionSystem) flagged_world
  = step DeletionSystem flagged_world.
Proof.
  refine (proj1 (DeletionSystem_step_twice flagged_world _ _)).
  - compute_done.
  - intros id ent Hin Hfl.
    apply elem_of_cons in Hin as [[= -> ->]|Hin]; [reflexivity|].
    apply elem_of_cons in Hin as [[= -> ->]|Hin]; [discriminate Hfl|].
    apply list_elem_of_singleton in Hin as [= -> ->]. reflexivity.
Defined.

(** ** More on registration *)

(** X17: registering the same object twice stores it under two
    consecutive ids, and the object carries only the second: the first
    id still leads to the object, which no longer names it. *)
Theorem add_ent_twice (ent : loc) (w : World) :
  ∃ w', (EntityManager_add_ent ent ;;; EntityManager_add_ent ent) w = Ok VNone w'
    ∧ EntityManager___getitem__ (ent_count w) w' = Ok ent w'
    ∧ EntityManager___getitem__ (ent_count w + 1) w' = Ok ent w'
    ∧ PyDict.get (deref w' ent) "id" = Some (VInt (ent_count w + 1))
    ∧ ent_count w' = ent_count w + 2.
Proof.
  exists (registered ent (registered ent w)).
  unfold bind. rewrite !add_ent_registered.
  unfold EntityManager___getitem__. split_and!.
  - done.
  - cbn [registered ents ent_count]. rewrite get_setitem_ne by lia.
    by rewrite get_setitem_eq.
  - cbn [registered ents ent_count]. by rewrite get_setitem_eq.
  - rewrite deref_registered. unfold Entity___setattr__. apply get_setitem_eq.
  - cbn [registered ent_count]. lia.
Qed.

(** X18: when the id that the counter holds is taken, as on a manager
    built on a store that holds id 0, [add_ent] puts the new entity in
    the place of the one stored under that id: the ids of the store and
    their order are as before, the entity that was there is no longer
    reachable by that id, and it is left as it was. *)
Theorem add_ent_overwrites (ent old : loc) (w : World) :
  PyDict.get (ents w) (ent_count w) = Some old →
  ∃ w', EntityManager_add_ent ent w = Ok VNone w'
    ∧ EntityManager___getitem__ (ent_count w) w' = Ok ent w'
    ∧ PyDict.keys (ents w') = PyDict.keys (ents w)
    ∧ (∀ id, id ≠ ent_count w → PyDict.get (ents w') id = PyDict.get (ents w) id)
    ∧ (old ≠ ent → deref w' old = deref w old).
Proof.
  intros Hold. exists (registered ent w). split; [apply add_ent_registered|].
  unfold EntityManager___getitem__. cbn [registered ents]. split_and!.
  - by rewrite get_setitem_eq.
  - apply setitem_keys_present.
    apply get_Some_elem in Hold. by apply (list_elem_of_fmap_2 fst) in Hold.
  - intros id Hid. by rewrite get_setitem_ne.
  - intros Hne. unfold deref. cbn [registered heap]. by rewrite lookup_insert_ne.
Qed.

Lemma add_ent_overwrites_witness :
  let w0 := (EntityManager___init__ (heap_of [(0%nat, [("id", VInt 0)]); (1%nat, [])])
               [] (Some [(0, 0%nat)]) None None None).1 in
  ∃ w', EntityManager_add_ent 1%nat w0 = Ok VNone w'
        ∧ EntityManager___getitem__ 0 w' = Ok 1%nat w'
        ∧ PyDict.keys (ents w') = [0].
Proof.
  intros w0.
  destruct (add_ent_overwrites 1%nat 0%nat w0 eq_refl) as (w' & Hrun & Hget & Hkeys & _).
  exists w'. split_and!; [exact Hrun | exact Hget | exact Hkeys].
Defined.

(** X19: registering an object that is not in the store, on a store
    whose ids are below the counter, puts it last in the order of the
    store and leaves every stored entity as it was: the state that the
    next tick hashes is the old one followed by the canonical form of
    the new entity, [id] included. *)
Theorem add_ent_appends (ent : loc) (w : World) :
  below_counter w → ent ∉ PyDict.values (ents w) →
  ∃ w', EntityManager_add_ent ent w = Ok VNone w'
    ∧ ents w' = ents w ++ [(ent_count w, ent)]
    ∧ frozen_state w'
      = frozen_state w
        ++ [sorted_items (Entity___setattr__ (deref w ent) "id" (VInt (ent_count w)))]
    ∧ below_counter w'.
Proof.
  intros Hbelow Hnew. exists (registered ent w). split; [apply add_ent_registered|].
  assert (Hfresh : ent_count w ∉ PyDict.keys (ents w)).
  { intros Hin. apply Hbelow in Hin. lia. }
  assert (Hents : ents (registered ent w) = ents w ++ [(ent_count w, ent)]).
  { cbn [registered ents]. by apply setitem_fresh. }
  split_and!.
  - exact Hents.
  - unfold frozen_state. rewrite Hents. unfold PyDict.values.
    rewrite !map_app. cbn [map snd]. f_equal.
    + apply map_ext_in. intros l Hl. f_equal.
      unfold deref. cbn [registered heap]. rewrite lookup_insert_ne; [done|].
      intros ->. apply Hnew. by apply list_elem_of_In.
    + by rewrite deref_registered.
  - apply (run_op_below_counter (Register ent) w Hbelow).
Qed.

Lemma add_ent_appends_witness :
  ∃ w', EntityManager_add_ent 8%nat hp_world = Ok VNone w'
        ∧ ents w' = [(0, 5%nat); (1, 6%nat); (2, 7%nat); (3, 8%nat)].
Proof.
  destruct (add_ent_appends 8%nat hp_world) as (w' & Hrun & Hents & _).
  - intros k Hk. apply elem_of_cons in Hk as [->|Hk]; [done|].
    apply elem_of_cons in Hk as [->|Hk]; [done|].
    apply list_elem_of_singleton in Hk as ->. done.
  - compute_done.
  - exists w'. split; [exact Hrun | exact Hents].
Defined.

(** ** A manager used as the data model expects *)

Lemma del_ent_shrunk (id : value) (w : World) : shrunk w (world_of (del_ent id w)).
Proof.
  unfold shrunk. destruct (del_ent id w) as [[] w1|e w1] eqn:Hdel.
  - apply del_ent_ok in Hdel as (k & _ & _ & Hdel & Hheap & Hcount).
    split_and!; [done|done|]. by apply delitem_sublist in Hdel as [? _].
  - by apply del_ent_raise in Hdel as [_ ->].
Qed.

Lemma for_each_del_ent_shrunk (ids : list value) (w : World) :
  shrunk w (world_of (for_each ids del_ent w)).
Proof.
  revert w. induction ids as [|id ids IH]; intros w; [done|].
  simpl. unfold bind. pose proof (del_ent_shrunk id w) as Hhead.
  destruct (del_ent id w) as [[] w1|e w1]; [|exact Hhead].
  cbn [world_of] in Hhead.
  destruct Hhead as (Hh & Hc & Hs), (IH w1) as (Hh' & Hc' & Hs').
  split_and!; [congruence | congruence | by etransitivity].
Qed.

Lemma shrunk_own_ids (w w' : World) :
  shrunk w w' → own_ids w → below_counter w → own_ids w' ∧ below_counter w'.
Proof.
  intros (Hheap & Hcount & Hsub) [Hwf Hown] Hbelow. split; [split|].
  - unfold PyDict.wf, PyDict.keys in *.
    apply (sublist_NoDup _ (map fst (ents w))); [done | by apply fmap_sublist].
  - intros id ent Hin. unfold deref. rewrite Hheap.
    apply Hown. by apply (elem_of_sublist _ _ _ Hin).
  - intros k Hk. rewrite Hcount. apply Hbelow.
    apply (elem_of_sublist _ _ _ Hk). by apply fmap_sublist.
Qed.

Lemma perform_keeps_own_ids (a : action) (w : World) :
  own_ids w → below_counter w → disciplined [a] w →
  own_ids (perform a w) ∧ below_counter (perform a w).
Proof.
  intros Hown Hbelow [Ha _]. destruct a as [ent|ent name v|id|]; cbn [perform].
  - rewrite add_ent_registered. split; [by apply registered_own_ids|].
    apply (run_op_below_counter (Register ent) w Hbelow).
  - destruct Hown as [Hwf Hown].
    change (world_of (setattr ent name v w))
      with (set_heap (<[ent := Entity___setattr__ (deref w ent) name v]> (heap w)) w).
    split; [split|].
    + exact Hwf.
    + intros id ent' Hin. change ((id, ent') ∈ ents w) in Hin.
      destruct (decide (ent' = ent)) as [->|Hne].
      * rewrite deref_set_heap_eq. unfold Entity___setattr__.
        rewrite get_setitem_ne by done. by apply Hown.
      * unfold deref, set_heap. cbn [heap].
        rewrite lookup_insert_ne by done. by apply Hown.
    + exact Hbelow.
  - apply (shrunk_own_ids w); [apply del_ent_shrunk | done | done].
  - apply (shrunk_own_ids w); [|done|done].
    rewrite DeletionSystem_step_eq. apply for_each_del_ent_shrunk.
Qed.

Lemma perform_all_keeps_own_ids (acts : list action) (w : World) :
  own_ids w → below_counter w → disciplined acts w →
  own_ids (perform_all acts w) ∧ below_counter (perform_all acts w).
Proof.
  revert w. induction acts as [|a acts IH]; intros w Hown Hbelow Hacts; [done|].
  destruct Hacts as [Ha Hacts].
  destruct (perform_keeps_own_ids a w Hown Hbelow) as [Hown' Hbelow']; [done|].
  by apply IH.
Qed.

(** X20: on a manager that starts with an empty store and is used with
    discipline (an object is registered once, [id] is written by the
    manager only), whatever is registered, written, deleted or ticked,
    every entity of the store carries the id it is stored under, ids
    are distinct and below the counter, and a tick of [DeletionSystem]
    never raises. *)
Theorem disciplined_use_keeps_own_ids (h : gmap loc Entity) (out : list string)
    (ents0 : option (pydict Z loc)) (acts : list action) :
  or_empty ents0 = [] →
  let w0 := (EntityManager___init__ h out ents0 None None None).1 in
  disciplined acts w0 →
  let w := perform_all acts w0 in
  own_ids w
  ∧ below_counter w
  ∧ ∃ w', step DeletionSystem w = Ok tt w' ∧ own_ids w'.
Proof.
  intros Hempty w0 Hacts w.
  assert (Hinv : own_ids w ∧ below_counter w).
  { apply perform_all_keeps_own_ids; [| |done].
    - unfold own_ids, PyDict.wf, w0. simpl. rewrite Hempty. simpl.
      split; [constructor | by intros ?? ?%elem_of_nil].
    - unfold below_counter, w0. simpl. rewrite Hempty. by intros ? ?%elem_of_nil. }
  destruct Hinv as [Hown Hbelow]. split_and!; [done|done|].
  eexists. split.
  - apply DeletionSystem_step_ok; [apply Hown | by apply own_ids_flagged].
  - apply (shrunk_own_ids w); [|done|done].
    split_and!; [done|done|]. apply filter_sublist.
Qed.

Lemma disciplined_use_keeps_own_ids_witness :
  let w0 := (EntityManager___init__
               (heap_of [(0%nat, []); (1%nat, [("hp", VInt 3)])]) [] None None None None).1 in
  own_ids (perform_all [Add 0%nat; Add 1%nat; SetComponent 0%nat "delete" (VBool true);
                        Tick; Del (VInt 7)] w0).
Proof.
  intros w0.
  refine (proj1 (disciplined_use_keeps_own_ids
                   (heap_of [(0%nat, []); (1%nat, [("hp", VInt 3)])]) [] None
                   [Add 0%nat; Add 1%nat; SetComponent 0%nat "delete" (VBool true);
                    Tick; Del (VInt 7)] eq_refl _)).
  simpl. split_and!; try done; compute_done.
Defined.

(** ** More on filters *)

(** X21: a filter whose [apply_individual] returns the entity where a
    predicate holds reports the entities that satisfy the predicate and
    have at least one component (an empty entity is falsy), in the order
    of the store, each by its [id] component, [None] if it has none; on
    a store whose entities carry their own ids, that is exactly the list
    of the store ids of the entities that satisfy the predicate. *)
Theorem Filter_apply_select (p : Entity → kwargs → bool) (crit : kwargs) (w : World) :
  Filter_apply (select p) crit w
  = Ok (map (λ ent, Entity___getattr__ (deref w ent) "id")
          (List.filter (λ ent, p (deref w ent) crit
                               && negb (bool_decide (deref w ent = [])))
                       (PyDict.values (ents w)))) w
  ∧ (own_ids w →
     Filter_apply (select p) crit w
     = Ok (map VInt (PyDict.keys
                       (List.filter (λ kv, p (deref w kv.2) crit) (ents w)))) w).
Proof.
  set (result := λ ent, if p (deref w ent) crit then PyEntity ent else PyValue VNone).
  assert (Hrun : Filter_apply (select p) crit w
            = Ok (map (id_of w)
                    (List.filter (truthy w) (map result (PyDict.values (ents w))))) w).
  { unfold Filter_apply, bind, get_world.
    unfold PyDict.items, PyDict.values. rewrite map_map.
    rewrite (map_M_query _ (λ kv, result kv.2)) by (by intros [id ent] _).
    apply collect_ids_entities. intros o Ho Ht.
    apply list_elem_of_fmap in Ho as ([id ent] & -> & _). unfold result in *. simpl in *.
    destruct (p (deref w ent) crit); [by eauto | done]. }
  split.
  - rewrite Hrun. clear Hrun. subst result. f_equal.
    generalize (PyDict.values (ents w)). intros l.
    induction l as [|ent l IH]; [done|]. simpl.
    destruct (p (deref w ent) crit); simpl.
    + destruct (bool_decide (deref w ent = [])); simpl; by rewrite IH.
    + exact IH.
  - intros [_ Hown]. rewrite Hrun. clear Hrun. subst result. f_equal.
    unfold PyDict.values, PyDict.keys.
    revert Hown. generalize (ents w). intros d Hown.
    induction d as [|[id ent] d IH]; [done|]. simpl.
    assert (Hid : PyDict.get (deref w ent) "id" = Some (VInt id))
      by apply Hown, list_elem_of_here.
    assert (IH' := IH (λ id' ent' Hin, Hown id' ent' (list_elem_of_further _ _ _ Hin))).
    destruct (p (deref w ent) crit); simpl; [|exact IH'].
    rewrite bool_decide_eq_false_2; simpl.
    + unfold Entity___getattr__. by rewrite Hid, IH'.
    + intros Hnil. by rewrite Hnil in Hid.
Qed.

Lemma Filter_apply_select_witness :
  Filter_apply (select (λ e _, PyDict.contains e "hp")) [] hp_world
  = Ok [VInt 0; VInt 2] hp_world.
Proof.
  refine (proj2 (Filter_apply_select (λ e _, PyDict.contains e "hp") [] hp_world) _).
  split; [compute_done|].
  intros id ent Hin.
  apply elem_of_cons in Hin as [[= -> ->]|Hin]; [reflexivity|].
  apply elem_of_cons in Hin as [[= -> ->]|Hin]; [reflexivity|].
  apply list_elem_of_singleton in Hin as [= -> ->]. reflexivity.
Defined.

Lemma collect_ids_scalar (results : list pyobj) (w : World) :
  (∃ v, PyValue v ∈ results ∧ value_truthy v = true) →
  collect_ids results w = Raise AttributeError w.
Proof.
  induction results as [|o results IH]; intros (v & Hin & Hv).
  - by apply elem_of_nil in Hin.
  - simpl. unfold bind, get_world.
    apply elem_of_cons in Hin as [<-|Hin].
    + simpl. by rewrite Hv.
    + assert (IH' : collect_ids results w = Raise AttributeError w) by (apply IH; eauto).
      destruct (truthy w o); [|exact IH'].
      destruct o as [v'|ent]; [done|]. simpl. by rewrite IH'.
Qed.

(** X22: a filter whose [apply_individual] answers [True] or [False]
    makes [apply] raise [AttributeError] as soon as one entity of the
    store satisfies the predicate, since [True] has no [id]; it returns
    the empty list when none does. *)
Theorem Filter_apply_bool_answers (p : Entity → kwargs → bool) (crit : kwargs)
    (w : World) :
  ((∃ ent, ent ∈ PyDict.values (ents w) ∧ p (deref w ent) crit = true) →
   Filter_apply (answers_bool p) crit w = Raise AttributeError w)
  ∧ ((∀ ent, ent ∈ PyDict.values (ents w) → p (deref w ent) crit = false) →
     Filter_apply (answers_bool p) crit w = Ok [] w).
Proof.
  set (result := λ ent, PyValue (VBool (p (deref w ent) crit))).
  assert (Hmap : map_M (λ '(id, ent), answers_bool p ent crit) (PyDict.items (ents w)) w
                 = Ok (map result (PyDict.values (ents w))) w).
  { unfold PyDict.items, PyDict.values. rewrite map_map.
    by rewrite (map_M_query _ (λ kv, result kv.2)) by (by intros [id ent] _). }
  unfold Filter_apply, bind, get_world. rewrite Hmap. split.
  - intros (ent & Hin & Hp). apply collect_ids_scalar.
    exists (VBool true). split; [|done].
    apply list_elem_of_fmap. exists ent. split; [|done]. unfold result. by rewrite Hp.
  - intros Hnone. rewrite collect_ids_entities.
    + f_equal. generalize (PyDict.values (ents w)) Hnone. intros l Hl.
      induction l as [|ent l IH]; [done|]. simpl.
      rewrite (Hl ent) by apply list_elem_of_here. simpl.
      apply IH. intros ent' Hin. apply Hl. by apply list_elem_of_further.
    + intros o Ho Ht. apply list_elem_of_fmap in Ho as (ent & -> & Hin).
      unfold result in Ht. simpl in Ht. by rewrite (Hnone ent Hin) in Ht.
Qed.

Lemma Filter_apply_bool_answers_witness :
  Filter_apply (answers_bool (λ e _, PyDict.contains e "hp")) [] hp_world
  = Raise AttributeError hp_world.
Proof.
  refine (proj1 (Filter_apply_bool_answers (λ e _, PyDict.contains e "hp") [] hp_world) _).
  exists 5%nat. split; [compute_done | reflexivity].
Defined.

(** ** A manager constructed empty *)

(** X23: a manager constructed without arguments, or with empty
    containers in their place, holds nothing: every lookup of an id and
    every query of a filter raises [KeyError], no system is found under
    any class name, [draw] and [do_step] change nothing, and the tick
    returns the fingerprint of the empty state. *)
Theorem EntityManager_init_empty (h : gmap loc Entity) (out : list string)
    (ents0 : option (pydict Z loc)) (systems0 : option (list System))
    (draws0 : option (list DrawSystem)) (filters0 : option (pydict string Filter)) :
  or_empty ents0 = [] → or_empty systems0 = [] →
  or_empty draws0 = [] → or_empty filters0 = [] →
  let w0 := (EntityManager___init__ h out ents0 systems0 draws0 filters0).1 in
  let self := (EntityManager___init__ h out ents0 systems0 draws0 filters0).2 in
  (∀ id, EntityManager___getitem__ id w0 = Raise KeyError w0)
  ∧ (∀ name kw, EntityManager_filter self name kw w0 = Raise KeyError w0)
  ∧ (∀ classname, EntityManager_get_system self classname = None)
  ∧ (∀ off, EntityManager_draw self off w0 = Ok tt w0)
  ∧ EntityManager_do_step self w0 = Ok (state_hash w0) w0
  ∧ Repr.str_state (frozen_state w0) = "()"
  ∧ ent_count w0 = 0.
Proof.
  intros He Hs Hd Hf w0 self.
  unfold w0, self, EntityManager___init__, EntityManager___getitem__,
    EntityManager_filter, EntityManager_get_system, EntityManager_draw,
    EntityManager_do_step, frozen_state.
  cbn [fst snd ents systems draw_systems filters ent_count].
  rewrite He, Hs, Hd, Hf. by split_and!.
Qed.

Lemma EntityManager_init_empty_witness :
  let w0 := (EntityManager___init__ ∅ [] (Some []) None (Some []) None).1 in
  EntityManager___getitem__ 0 w0 = Raise KeyError w0.
Proof.
  intros w0.
  exact (proj1 (EntityManager_init_empty ∅ [] (Some []) None (Some []) None
                  eq_refl eq_refl eq_refl eq_refl) 0).
Defined.
